(** * EZUnsub TypeScript SDK: webhook verification and REST error mapping

    A shallow embedding of [webhook.ts] (class [WebhookVerifier]),
    [errors.ts] (the [EZUnsubError] hierarchy) and of the constructor,
    [request], [handleResponse] and [parseJson] of [EZUnsubClient] in
    [client.ts].

    Conventions of the embedding.
    - A JavaScript string is a Rocq [string] holding its UTF-8 bytes, which
      is what [Buffer.from] and [Hmac.update] see.  The embedding is exact
      on well-formed strings (no lone surrogates).
    - A JavaScript number is [NaN], an infinity or an integer-valued
      double; epoch seconds, HTTP statuses and window lengths live there.
      Subtraction rounds as doubles do, and numbers print as
      [Number::toString] prints them.  Numbers with a fraction are not
      modelled.
    - A value read from JSON is converted to a string as [new Error] and
      template literals do it, which fails on an object that has a
      [toString] property of its own.
    - A [Headers] object is the header list it holds, and a response
      carries the text of its body.
    - A computation is a function of the world (the clock, and the list of
      texts handed to [JSON.parse] so far) that returns a completion, a
      normal value or a thrown error, and the new world.
    - [createHmac('sha256', _)] is HMAC (RFC 2104) over SHA-256
      (FIPS 180-4), written out below.  [JSON.parse] is a parameter: its
      diagnostics are engine specific. *)

From Stdlib Require Import String Ascii DecimalString DecimalPos.
From Stdlib Require Import ZArith List Bool Lia.
Import ListNotations.
Open Scope string_scope.
Open Scope list_scope.
Open Scope Z_scope.

Set Warnings "-register-all".

(** String concatenation, as [+] and template literals build strings. *)
Infix "+++" := String.append (right associativity, at level 60).

(** ** SHA-256 (FIPS 180-4) on byte lists *)

Module SHA256.

Definition wrap32 (x : Z) : Z := x mod 2 ^ 32.
Definition add32 (x y : Z) : Z := wrap32 (x + y).

Definition ROTR (n x : Z) : Z :=
  Z.lor (Z.shiftr x n) (wrap32 (Z.shiftl x (32 - n))).
Definition SHR (n x : Z) : Z := Z.shiftr x n.

Definition Ch (x y z : Z) : Z :=
  Z.lxor (Z.land x y) (Z.land (Z.lxor x (2 ^ 32 - 1)) z).
Definition Maj (x y z : Z) : Z :=
  Z.lxor (Z.lxor (Z.land x y) (Z.land x z)) (Z.land y z).
Definition bigSigma0 (x : Z) : Z :=
  Z.lxor (Z.lxor (ROTR 2 x) (ROTR 13 x)) (ROTR 22 x).
Definition bigSigma1 (x : Z) : Z :=
  Z.lxor (Z.lxor (ROTR 6 x) (ROTR 11 x)) (ROTR 25 x).
Definition smallSigma0 (x : Z) : Z :=
  Z.lxor (Z.lxor (ROTR 7 x) (ROTR 18 x)) (SHR 3 x).
Definition smallSigma1 (x : Z) : Z :=
  Z.lxor (Z.lxor (ROTR 17 x) (ROTR 19 x)) (SHR 10 x).

(** The round constants are the first 32 bits of the fractional parts of
    the cube roots of the first 64 primes, the initial hash value those of
    the square roots of the first 8 primes. *)

Definition primes64 : list Z :=
  [2; 3; 5; 7; 11; 13; 17; 19; 23; 29; 31; 37; 41; 43; 47; 53;
   59; 61; 67; 71; 73; 79; 83; 89; 97; 101; 103; 107; 109; 113; 127; 131;
   137; 139; 149; 151; 157; 163; 167; 173; 179; 181; 191; 193; 197; 199;
   211; 223; 227; 229; 233; 239; 241; 251; 257; 263; 269; 271; 277; 281;
   283; 293; 307; 311].

(** Integer cube root, bit by bit from bit [bits - 1] down. *)
Fixpoint icbrt_from (bits : nat) (n r : Z) : Z :=
  match bits with
  | O => r
  | S b =>
      let r' := r + 2 ^ Z.of_nat b in
      icbrt_from b n (if r' * r' * r' <=? n then r' else r)
  end.
Definition icbrt (n : Z) : Z := icbrt_from 40 n 0.

Definition K : list Z :=
  Eval vm_compute in map (fun p => wrap32 (icbrt (p * 2 ^ 96))) primes64.

Definition H0 : list Z :=
  Eval vm_compute in
    map (fun p => wrap32 (Z.sqrt (p * 2 ^ 64))) (firstn 8 primes64).

(** Padding: a [0x80] byte, zeros up to 56 modulo 64, then the bit length
    as a 64-bit big-endian integer. *)

Definition be_bytes (width : nat) (x : Z) : list Z :=
  map (fun i => Z.shiftr x (8 * Z.of_nat i) mod 256) (rev (seq 0 width)).

Definition pad (msg : list Z) : list Z :=
  let len := Z.of_nat (length msg) in
  msg ++ [128] ++ repeat 0 (Z.to_nat ((55 - len) mod 64))
      ++ be_bytes 8 (8 * len).

Definition be_word (b0 b1 b2 b3 : Z) : Z :=
  Z.lor (Z.lor (Z.shiftl b0 24) (Z.shiftl b1 16))
        (Z.lor (Z.shiftl b2 8) b3).

Fixpoint words_of_bytes (fuel : nat) (bs : list Z) : list Z :=
  match fuel, bs with
  | S f, b0 :: b1 :: b2 :: b3 :: rest =>
      be_word b0 b1 b2 b3 :: words_of_bytes f rest
  | _, _ => []
  end.

Fixpoint blocks_of_words (fuel : nat) (ws : list Z) : list (list Z) :=
  match fuel, ws with
  | S f, _ :: _ => firstn 16 ws :: blocks_of_words f (skipn 16 ws)
  | _, _ => []
  end.

(** Message schedule, most recent word first while it is built. *)
Fixpoint extend_schedule (n : nat) (recent : list Z) : list Z :=
  match n with
  | O => recent
  | S n' =>
      let w := add32 (add32 (smallSigma1 (nth 1 recent 0)) (nth 6 recent 0))
                     (add32 (smallSigma0 (nth 14 recent 0)) (nth 15 recent 0)) in
      extend_schedule n' (w :: recent)
  end.

Definition schedule (block : list Z) : list Z :=
  rev (extend_schedule 48 (rev block)).

Record state : Type := State
  { sa : Z; sb : Z; sc : Z; sd : Z; se : Z; sf : Z; sg : Z; sh : Z }.

Definition round (s : state) (kw : Z * Z) : state :=
  let (k, w) := kw in
  let T1 := add32 (add32 (add32 (sh s) (bigSigma1 (se s)))
                         (add32 (Ch (se s) (sf s) (sg s)) k)) w in
  let T2 := add32 (bigSigma0 (sa s)) (Maj (sa s) (sb s) (sc s)) in
  State (add32 T1 T2) (sa s) (sb s) (sc s) (add32 (sd s) T1)
        (se s) (sf s) (sg s).

Definition compress (h : state) (block : list Z) : state :=
  let s := fold_left round (combine K (schedule block)) h in
  State (add32 (sa h) (sa s)) (add32 (sb h) (sb s))
        (add32 (sc h) (sc s)) (add32 (sd h) (sd s))
        (add32 (se h) (se s)) (add32 (sf h) (sf s))
        (add32 (sg h) (sg s)) (add32 (sh h) (sh s)).

Definition initial : state :=
  State (nth 0 H0 0) (nth 1 H0 0) (nth 2 H0 0) (nth 3 H0 0)
        (nth 4 H0 0) (nth 5 H0 0) (nth 6 H0 0) (nth 7 H0 0).

Definition state_bytes (s : state) : list Z :=
  flat_map (be_bytes 4)
           [sa s; sb s; sc s; sd s; se s; sf s; sg s; sh s].

Definition digest (msg : list Z) : list Z :=
  let padded := pad msg in
  let ws := words_of_bytes (length padded) padded in
  state_bytes (fold_left compress (blocks_of_words (length ws) ws) initial).

End SHA256.

(** ** HMAC (RFC 2104) with SHA-256, and hexadecimal output *)

Definition bytes_of_string (s : string) : list Z :=
  map (fun c => Z.of_N (N_of_ascii c)) (list_ascii_of_string s).

Module HMAC.

Definition block_size : nat := 64.

Definition block_key (key : list Z) : list Z :=
  let k := if (block_size <? length key)%nat then SHA256.digest key else key in
  k ++ repeat 0 (block_size - length k).

Definition xor_pad (p : Z) (key : list Z) : list Z := map (Z.lxor p) key.

Definition hmac_sha256 (key msg : list Z) : list Z :=
  let k := block_key key in
  SHA256.digest (xor_pad 92 k ++ SHA256.digest (xor_pad 54 k ++ msg)).

End HMAC.

Definition hex_alphabet : list ascii :=
  list_ascii_of_string "0123456789abcdef".

Definition hex_digit (n : Z) : ascii := nth (Z.to_nat n) hex_alphabet "0"%char.

Definition is_hex_digit (c : ascii) : bool := existsb (Ascii.eqb c) hex_alphabet.

Fixpoint hex_of_bytes (bs : list Z) : string :=
  match bs with
  | [] => EmptyString
  | b :: rest =>
      String (hex_digit (b / 16)) (String (hex_digit (b mod 16)) (hex_of_bytes rest))
  end.

(** [createHmac('sha256', secret).update(message).digest('hex')] *)
Definition createHmac_sha256_hex (secret message : string) : string :=
  hex_of_bytes (HMAC.hmac_sha256 (bytes_of_string secret) (bytes_of_string message)).


(** ** JavaScript numbers, strings and values *)

(** A number is [NaN], an infinity, or an integer; [Int z] stands for a
    double when [z] is one ([representable]).  The two zeros are not
    told apart: the code prints, compares and tests them alike. *)
Inductive number : Type :=
| NaN
| Int (z : Z)
| Infinity (negative : bool).

(** Rounding of a magnitude to 53 significant bits, to nearest, ties to
    even (IEEE 754 binary64). *)
Definition round_magnitude (z : Z) : Z :=
  if z <? 2 ^ 53 then z
  else
    let e := Z.log2 z - 52 in
    let q := z / 2 ^ e in
    let r := z mod 2 ^ e in
    let half := 2 ^ (e - 1) in
    (if (half <? r) || ((r =? half) && Z.odd q) then q + 1 else q) * 2 ^ e.

(** The double nearest to an integer; from [2^1024 - 2^970] up it is an
    infinity. *)
Definition round_to_double (z : Z) : number :=
  let m := round_magnitude (Z.abs z) in
  if 2 ^ 1024 <=? m then Infinity (z <? 0) else Int (Z.sgn z * m).

(** The integers that are doubles, and the safe integers, which are
    doubles and print with all their digits. *)
Definition representable (z : Z) : Prop := round_to_double z = Int z.

Definition safe_integer (z : Z) : Prop := Z.abs z < 2 ^ 53.

(** [a - b] *)
Definition number_sub (a b : number) : number :=
  match a, b with
  | Int x, Int y => round_to_double (x - y)
  | Infinity s, Int _ => Infinity s
  | Int _, Infinity s => Infinity (negb s)
  | Infinity s, Infinity t => if Bool.eqb s t then NaN else Infinity s
  | _, _ => NaN
  end.

Definition Math_abs (a : number) : number :=
  match a with
  | Int x => Int (Z.abs x)
  | Infinity _ => Infinity false
  | NaN => NaN
  end.

(** [a > b]; any comparison with [NaN] is [false]. *)
Definition number_gt (a b : number) : bool :=
  match a, b with
  | Int x, Int y => y <? x
  | Infinity false, Int _ => true
  | Infinity false, Infinity true => true
  | Int _, Infinity true => true
  | _, _ => false
  end.

(** The digits of an integer. *)
Definition decimal (z : Z) : string := NilZero.string_of_int (Z.to_int z).

(** The decimal with the fewest significant digits that rounds to the
    double [x], the closest one to [x] if there are several: the digits
    [Number::toString] prints.  [d] is the number of digits of [x], [k]
    the number of significant digits tried. *)
Fixpoint shortest_from (fuel : nat) (k : Z) (x d : Z) : Z :=
  match fuel with
  | O => x
  | S f =>
      let p := 10 ^ (d - k) in
      let lo := x / p * p in
      let hi := lo + p in
      let lo_ok := round_magnitude lo =? x in
      let hi_ok := round_magnitude hi =? x in
      if lo_ok && hi_ok
      then if x - lo <? hi - x then lo
           else if hi - x <? x - lo then hi
           else if Z.even (x / p) then lo else hi
      else if lo_ok then lo
      else if hi_ok then hi
      else shortest_from f (k + 1) x d
  end.

Definition shortest_decimal (x : Z) : Z :=
  shortest_from 17 1 x (Z.of_nat (String.length (decimal x))).

Fixpoint strip_zeros (fuel : nat) (v : Z) : Z :=
  match fuel with
  | O => v
  | S f =>
      if (v mod 10 =? 0) && negb (v =? 0) then strip_zeros f (v / 10) else v
  end.

(** [Number::toString] of a positive integer double: a safe integer is
    printed with all its digits (they are the fewest that round to it);
    above, the shortest digits are printed, padded with zeros below
    [1e21] and in exponent form from [1e21] up. *)
Definition print_magnitude (x : Z) : string :=
  if x <? 2 ^ 53 then decimal x
  else
    let v := shortest_decimal x in
    let n := Z.of_nat (String.length (decimal v)) in
    if n <=? 21 then decimal v
    else
      match decimal (strip_zeros 400 v) with
      | String c EmptyString => String c EmptyString +++ "e+" +++ decimal (n - 1)
      | String c rest => String c ("." +++ rest) +++ "e+" +++ decimal (n - 1)
      | EmptyString => EmptyString
      end.

(** [Number::toString], radix 10. *)
Definition Number_toString (n : number) : string :=
  match n with
  | NaN => "NaN"
  | Infinity false => "Infinity"
  | Infinity true => "-Infinity"
  | Int z => if z <? 0 then "-" +++ print_magnitude (- z) else print_magnitude z
  end.

Definition code (c : ascii) : Z := Z.of_N (N_of_ascii c).

Definition is_digit (c : ascii) : bool := (48 <=? code c) && (code c <=? 57).

(** The white space and line terminators that [parseInt] skips, as UTF-8:
    TAB, LF, VT, FF, CR, SP; U+00A0; U+1680; U+2000..U+200A, U+2028,
    U+2029, U+202F, U+205F; U+3000; U+FEFF. *)
Definition ws1 (c : ascii) : bool :=
  ((9 <=? code c) && (code c <=? 13)) || (code c =? 32).

Definition ws2 (c1 c2 : ascii) : bool := (code c1 =? 194) && (code c2 =? 160).

Definition ws3 (c1 c2 c3 : ascii) : bool :=
  ((code c1 =? 225) && (code c2 =? 154) && (code c3 =? 128))
  || ((code c1 =? 226) && (code c2 =? 128)
      && (((128 <=? code c3) && (code c3 <=? 138))
          || (code c3 =? 168) || (code c3 =? 169) || (code c3 =? 175)))
  || ((code c1 =? 226) && (code c2 =? 129) && (code c3 =? 159))
  || ((code c1 =? 227) && (code c2 =? 128) && (code c3 =? 128))
  || ((code c1 =? 239) && (code c2 =? 187) && (code c3 =? 191)).

Fixpoint trimStart (s : string) : string :=
  match s with
  | EmptyString => s
  | String c1 r1 =>
      if ws1 c1 then trimStart r1
      else
        match r1 with
        | EmptyString => s
        | String c2 r2 =>
            if ws2 c1 c2 then trimStart r2
            else
              match r2 with
              | EmptyString => s
              | String c3 r3 => if ws3 c1 c2 c3 then trimStart r3 else s
              end
        end
  end.

(** The value of the longest prefix of decimal digits; [acc] is the value
    of the digits read so far, [None] when there is none yet. *)
Fixpoint leading_digits (s : string) (acc : option Z) : option Z :=
  match s with
  | EmptyString => acc
  | String c r =>
      if is_digit c
      then leading_digits r (Some (10 * match acc with Some a => a | None => 0 end
                                   + (code c - 48)))
      else acc
  end.

(** The sign and what follows it. *)
Definition split_sign (s : string) : Z * string :=
  match s with
  | String "-" r => (-1, r)
  | String "+" r => (1, r)
  | _ => (1, s)
  end.

(** [parseInt(s, 10)]: white space is skipped, then a sign and the
    longest run of decimal digits are read; the result is the double
    nearest to their value, and [NaN] when there is no digit. *)
Definition parseInt10 (s : string) : number :=
  let (sign, digits) := split_sign (trimStart s) in
  match leading_digits digits None with
  | None => NaN
  | Some m => round_to_double (sign * m)
  end.

(** [s.startsWith(p)] *)
Fixpoint startsWith (s p : string) {struct p} : bool :=
  match p with
  | EmptyString => true
  | String a p' =>
      match s with
      | EmptyString => false
      | String b s' => Ascii.eqb a b && startsWith s' p'
      end
  end.

(** [s.slice(n)], for [s] whose first [n] characters are ASCII. *)
Fixpoint slice (s : string) (n : nat) : string :=
  match n, s with
  | S n', String _ r => slice r n'
  | _, _ => s
  end.

(** [s.toLowerCase()] on UTF-8 text: the ASCII capitals, and the Kelvin
    sign U+212A (bytes E2 84 AA), the one character outside ASCII whose
    lower case is an ASCII letter.  Every other character is left as it
    is: the code compares the result with ASCII names only, and no other
    character changes the outcome of such a comparison. *)
Definition lower_ascii (c : ascii) : ascii :=
  if (65 <=? code c) && (code c <=? 90)
  then ascii_of_N (N_of_ascii c + 32)
  else c.

Definition is_kelvin_sign (c1 c2 c3 : ascii) : bool :=
  (code c1 =? 226) && (code c2 =? 132) && (code c3 =? 170).

Fixpoint toLowerCase (s : string) : string :=
  match s with
  | EmptyString => EmptyString
  | String c1 r1 =>
      match r1 with
      | String c2 (String c3 r3) =>
          if is_kelvin_sign c1 c2 c3
          then String "k" (toLowerCase r3)
          else String (lower_ascii c1) (toLowerCase r1)
      | _ => String (lower_ascii c1) (toLowerCase r1)
      end
  end.

(** What [JSON.parse] can return, and [undefined]. An object is the list
    of its own properties. *)
Inductive JSValue : Type :=
| JSUndefined
| JSNull
| JSBoolean (b : bool)
| JSNumber (n : number)
| JSString (s : string)
| JSArray (elements : list JSValue)
| JSObject (properties : list (string * JSValue)).

(** Truthiness, as [!v] and [v ? _ : _] test it. *)
Definition ToBoolean (v : JSValue) : bool :=
  match v with
  | JSUndefined | JSNull => false
  | JSBoolean b => b
  | JSNumber NaN => false
  | JSNumber (Int z) => negb (z =? 0)
  | JSNumber (Infinity _) => true
  | JSString s => negb (String.eqb s EmptyString)
  | JSArray _ | JSObject _ => true
  end.

Fixpoint lookup {A : Type} (key : string) (l : list (string * A)) : option A :=
  match l with
  | [] => None
  | (k, v) :: rest => if String.eqb k key then Some v else lookup key rest
  end.

(** ** errors.ts *)

Inductive ErrorClass : Type :=
| Error | TypeError | RangeError | SyntaxError
| EZUnsubError | AuthenticationError | ValidationError | NotFoundError
| RateLimitError | ForbiddenError.

Definition ErrorClass_eqb (a b : ErrorClass) : bool :=
  match a, b with
  | Error, Error | TypeError, TypeError | RangeError, RangeError
  | SyntaxError, SyntaxError | EZUnsubError, EZUnsubError
  | AuthenticationError, AuthenticationError
  | ValidationError, ValidationError | NotFoundError, NotFoundError
  | RateLimitError, RateLimitError | ForbiddenError, ForbiddenError => true
  | _, _ => false
  end.

(** The direct superclass. *)
Definition extends (c : ErrorClass) : option ErrorClass :=
  match c with
  | Error => None
  | TypeError | RangeError | SyntaxError | EZUnsubError => Some Error
  | AuthenticationError | ValidationError | NotFoundError
  | RateLimitError | ForbiddenError => Some EZUnsubError
  end.

(** An error object: its class and the properties the constructors set.
    [None] is [undefined]. *)
Record JSError : Type := mkJSError
  { class : ErrorClass;
    name : string;
    message : string;
    statusCode : option Z;
    retryAfter : option number }.

Definition or_default {A : Type} (arg : option A) (dflt : A) : A :=
  match arg with
  | Some a => a
  | None => dflt
  end.

Definition new_Error (c : ErrorClass) (name message : string) : JSError :=
  mkJSError c name message None None.

Definition new_EZUnsubError (message : string) (statusCode : option Z) : JSError :=
  mkJSError EZUnsubError "EZUnsubError" message statusCode None.

Definition new_AuthenticationError (message : option string) : JSError :=
  mkJSError AuthenticationError "AuthenticationError"
            (or_default message "Authentication required") (Some 401) None.

Definition new_ValidationError (message : option string) : JSError :=
  mkJSError ValidationError "ValidationError"
            (or_default message "Invalid request") (Some 400) None.

Definition new_NotFoundError (message : option string) : JSError :=
  mkJSError NotFoundError "NotFoundError"
            (or_default message "Resource not found") (Some 404) None.

Definition new_RateLimitError (message : option string)
           (retryAfter : option number) : JSError :=
  mkJSError RateLimitError "RateLimitError"
            (or_default message "Rate limit exceeded") (Some 429) retryAfter.

Definition new_ForbiddenError (message : option string) : JSError :=
  mkJSError ForbiddenError "ForbiddenError"
            (or_default message "Access denied") (Some 403) None.

(** ** Completions and computations *)

Inductive completion (A : Type) : Type :=
| Normal (a : A)
| Throw (e : JSError).

Arguments Normal {A} a.
Arguments Throw {A} e.

(** The world a call runs in: [Date.now()] in milliseconds, and the texts
    [JSON.parse] has been called on, oldest first. *)
Record World : Type := mkWorld
  { clock : Z;
    parsed : list string }.

Definition JS (A : Type) : Type := World -> completion A * World.

Definition ret {A : Type} (a : A) : JS A := fun w => (Normal a, w).

Definition throw {A : Type} (e : JSError) : JS A := fun w => (Throw e, w).

(** A completion as a computation that leaves the world alone. *)
Definition lift {A : Type} (c : completion A) : JS A := fun w => (c, w).

Definition bind {A B : Type} (c : JS A) (k : A -> JS B) : JS B :=
  fun w =>
    match c w with
    | (Normal a, w') => k a w'
    | (Throw e, w') => (Throw e, w')
    end.

(** [try { c } catch (e) { handler e }] *)
Definition try_catch {A : Type} (c : JS A) (handler : JSError -> JS A) : JS A :=
  fun w =>
    match c w with
    | (Normal a, w') => (Normal a, w')
    | (Throw e, w') => handler e w'
    end.

Notation "x <- c ;; k" := (bind c (fun x => k))
  (at level 61, c at next level, right associativity).

(** ** The platform: clock, buffers, constant-time comparison, headers *)

Definition Date_now : JS Z := fun w => (Normal (clock w), w).

(** [Buffer.from(s)]: the UTF-8 bytes of [s]. *)
Definition Buffer_from (s : string) : list Z := bytes_of_string s.

(** The accumulator of the constant-time comparison: the bitwise or of
    the bytewise differences. *)
Fixpoint accumulate_xor (a b : list Z) (acc : Z) : Z :=
  match a, b with
  | x :: a', y :: b' => accumulate_xor a' b' (Z.lor acc (Z.lxor x y))
  | _, _ => acc
  end.

(** [crypto.timingSafeEqual(a, b)] raises a [RangeError] when the byte
    lengths differ. *)
Definition timingSafeEqual (a b : list Z) : JS bool :=
  if (length a =? length b)%nat
  then ret (accumulate_xor a b 0 =? 0)
  else throw (new_Error RangeError "RangeError"
                        "Input buffers must have the same byte length").

(** A [Headers] object is the header list it holds: names are tokens
    (ASCII), and the values are as the object stores them, without white
    space at either end.  How the list is built from the argument of
    [new Headers] is not modelled.  [get] returns the values of the
    headers whose name matches case-insensitively, joined by a comma and a
    space, or [null] ([None]). *)
Definition Headers : Type := list (string * string).

Definition Headers_get (h : Headers) (name : string) : option string :=
  match filter (fun nv => String.eqb (toLowerCase (fst nv)) (toLowerCase name)) h with
  | [] => None
  | matching => Some (String.concat ", " (map snd matching))
  end.

(** The error of [ToString] on an object that has no usable [toString]
    and no usable [valueOf]; the message is V8's. *)
Definition conversion_error : JSError :=
  new_Error TypeError "TypeError" "Cannot convert object to primitive value".

(** [ToString(v)], as [new Error(v)] and template literals apply it.  An
    array is joined ([Array.prototype.toString]).  An object is converted
    by its [toString] method: [Object.prototype.toString], which gives
    "[object Object]", unless the object has its own [toString] property.
    In a value read from JSON such a property is never a function; the
    conversion then falls back to [valueOf], which does not give a
    primitive value, and raises a [TypeError]. *)
Fixpoint ToString (v : JSValue) : completion string :=
  match v with
  | JSUndefined => Normal "undefined"
  | JSNull => Normal "null"
  | JSBoolean true => Normal "true"
  | JSBoolean false => Normal "false"
  | JSNumber n => Normal (Number_toString n)
  | JSString s => Normal s
  | JSArray elements =>
      (fix join (l : list JSValue) : completion string :=
         match l with
         | [] => Normal EmptyString
         | x :: rest =>
             match match x with
                   | JSUndefined | JSNull => Normal EmptyString
                   | _ => ToString x
                   end with
             | Throw e => Throw e
             | Normal sx =>
                 match rest with
                 | [] => Normal sx
                 | _ :: _ =>
                     match join rest with
                     | Throw e => Throw e
                     | Normal sr => Normal (sx +++ "," +++ sr)
                     end
                 end
             end
         end) elements
  | JSObject properties =>
      match lookup "toString" properties with
      | Some _ => Throw conversion_error
      | None => Normal "[object Object]"
      end
  end.

(** Property read [v.key], for a [key] that no built-in prototype defines
    ([event], [timestamp], [data], [error]).  Reading a property of
    [null] or [undefined] raises a [TypeError]; the message is V8's. *)
Definition GetV (v : JSValue) (key : string) : JS JSValue :=
  match v with
  | JSUndefined =>
      throw (new_Error TypeError "TypeError"
               ("Cannot read properties of undefined (reading '" +++ key +++ "')"))
  | JSNull =>
      throw (new_Error TypeError "TypeError"
               ("Cannot read properties of null (reading '" +++ key +++ "')"))
  | JSObject properties => ret (or_default (lookup key properties) JSUndefined)
  | _ => ret JSUndefined
  end.

(** [v ?? dflt] *)
Definition coalesce (v dflt : JSValue) : JSValue :=
  match v with
  | JSUndefined | JSNull => dflt
  | _ => v
  end.

(** [v?.key], same keys as [GetV]. *)
Definition optional_get (v : JSValue) (key : string) : JSValue :=
  match v with
  | JSObject properties => or_default (lookup key properties) JSUndefined
  | _ => JSUndefined
  end.

(** ** webhook.ts *)

Record WebhookPayload : Type := mkWebhookPayload
  { event : JSValue;
    timestamp : JSValue;
    data : JSValue;
    deliveryId : string }.

(** A verifier: its secret and its window, a whole number of seconds. *)
Record WebhookVerifier : Type := mkWebhookVerifier
  { secret : string;
    maxAgeSeconds : Z }.

Definition new_WebhookVerifier (secret : string) (maxAgeSeconds : option Z)
  : WebhookVerifier :=
  mkWebhookVerifier secret (or_default maxAgeSeconds 300).

(** The argument of [verifyAndParse]. *)
Module Options.
Record t : Type := make
  { signature : string;
    timestamp : string + number;
    body : string;
    deliveryId : option string }.
End Options.

(** The result of [extractHeaders]. *)
Module WebhookHeaders.
Record t : Type := make
  { signature : string;
    timestamp : string;
    event : string;
    deliveryId : string }.
End WebhookHeaders.

(** The argument of [extractHeaders]: a [Headers] object, or a plain
    object, given by the list [Object.entries] returns for it. *)
Inductive HeaderCarrier : Type :=
| FetchHeaders (h : Headers)
| PlainObject (entries : list (string * string)).

Definition verifySignature (self : WebhookVerifier)
           (signature : string) (timestamp : number) (body : string) : JS bool :=
  ms <- Date_now ;;
  let now := ms / 1000 in
  if number_gt (Math_abs (number_sub (Int now) timestamp))
               (Int (maxAgeSeconds self))
  then ret false
  else
    let message := Number_toString timestamp +++ "." +++ body in
    let expected := createHmac_sha256_hex (secret self) message in
    let sigValue := if startsWith signature "sha256="
                    then slice signature 7 else signature in
    try_catch (timingSafeEqual (Buffer_from expected) (Buffer_from sigValue))
              (fun _ => ret false).

(** The scan of a plain object's entries in [extractHeaders]. *)
Fixpoint scan_entries (entries : list (string * string)) (lowerKey : string)
  : option string :=
  match entries with
  | [] => None
  | (k, v) :: rest =>
      if String.eqb (toLowerCase k) lowerKey then Some v
      else scan_entries rest lowerKey
  end.

Definition extractHeaders_get (headers : HeaderCarrier) (key : string)
  : option string :=
  match headers with
  | FetchHeaders h => Headers_get h key
  | PlainObject entries => scan_entries entries (toLowerCase key)
  end.

Definition extractHeaders (headers : HeaderCarrier) : completion WebhookHeaders.t :=
  let get := extractHeaders_get headers in
  let signature := get "x-webhook-signature" in
  let timestamp := get "x-webhook-timestamp" in
  let event := get "x-webhook-event" in
  let deliveryId := get "x-webhook-delivery-id" in
  match signature with
  | None | Some EmptyString =>
      Throw (new_Error Error "Error" "Missing X-Webhook-Signature header")
  | Some signature =>
      match timestamp with
      | None | Some EmptyString =>
          Throw (new_Error Error "Error" "Missing X-Webhook-Timestamp header")
      | Some timestamp =>
          Normal (WebhookHeaders.make signature timestamp
                    (or_default event EmptyString)
                    (or_default deliveryId EmptyString))
      end
  end.

(** ** client.ts: the response handler *)

Record Response : Type := mkResponse
  { status : Z;
    headers : Headers;
    text : string }.

(** [response.text()], for a response whose body has arrived: the
    responses here carry their body text, and reading it does not fail.
    A body stream that breaks while it is read is not modelled. *)
Definition Response_text (response : Response) : JS string := ret (text response).

Definition nonempty (s : string) : bool := negb (String.eqb s EmptyString).

Section WithJSON.

(** [JSON.parse] as a function of the text: the value, or the
    [SyntaxError] it throws. *)
Variable parseJSON : string -> completion JSValue.

Definition JSON_parse (text : string) : JS JSValue :=
  fun w => (parseJSON text, mkWorld (clock w) (parsed w ++ [text])).

Definition verifyAndParse (self : WebhookVerifier) (options : Options.t)
  : JS WebhookPayload :=
  let ts := match Options.timestamp options with
            | inl s => parseInt10 s
            | inr n => n
            end in
  verified <- verifySignature self (Options.signature options) ts
                              (Options.body options) ;;
  if negb verified
  then throw (new_Error Error "Error" "Invalid webhook signature")
  else
    data <- try_catch (JSON_parse (Options.body options))
              (fun e => throw (new_Error Error "Error"
                                 ("Invalid JSON payload: " +++ message e))) ;;
    data_event <- GetV data "event" ;;
    if negb (ToBoolean data_event)
    then throw (new_Error Error "Error" "Missing 'event' field in payload")
    else
      data_timestamp <- GetV data "timestamp" ;;
      if negb (ToBoolean data_timestamp)
      then throw (new_Error Error "Error" "Missing 'timestamp' field in payload")
      else
        data_data <- GetV data "data" ;;
        if negb (ToBoolean data_data)
        then throw (new_Error Error "Error" "Missing 'data' field in payload")
        else
          ret (mkWebhookPayload data_event data_timestamp data_data
                 (or_default (Options.deliveryId options) EmptyString)).

Definition parseJson (response : Response) : JS JSValue :=
  try_catch (t <- Response_text response ;;
             if nonempty t then JSON_parse t else ret JSNull)
            (fun _ => ret JSNull).

(** [data?.error ?? dflt], as [new Error(message)] turns it into the
    message of the error: the declared type of [error] is [string], but
    the value is whatever the body holds, and the constructor of [Error]
    converts it with [ToString]. *)
Definition error_message (data : JSValue) (dflt : string) : completion string :=
  ToString (coalesce (optional_get data "error") (JSString dflt)).

Definition handleResponse (response : Response) : JS JSValue :=
  if status response =? 401
  then throw (new_AuthenticationError None)
  else if status response =? 403
  then data <- parseJson response ;;
       message <- lift (error_message data "Access denied") ;;
       throw (new_ForbiddenError (Some message))
  else if status response =? 404
  then data <- parseJson response ;;
       message <- lift (error_message data "Resource not found") ;;
       throw (new_NotFoundError (Some message))
  else if status response =? 429
  then let retryAfter := Headers_get (headers response) "Retry-After" in
       throw (new_RateLimitError (Some "Rate limit exceeded")
                match retryAfter with
                | Some value => if nonempty value
                                then Some (parseInt10 value) else None
                | None => None
                end)
  else if status response =? 400
  then data <- parseJson response ;;
       message <- lift (error_message data "Invalid request") ;;
       throw (new_ValidationError (Some message))
  else if 400 <=? status response
  then data <- parseJson response ;;
       message <- lift (error_message data
                          ("Request failed with status "
                           +++ Number_toString (Int (status response)))) ;;
       throw (new_EZUnsubError message (Some (status response)))
  else if status response =? 204
  then ret (JSObject [])
  else
    t <- Response_text response ;;
    if negb (nonempty t) then ret (JSObject []) else JSON_parse t.

End WithJSON.

(** ** A reference reader for JSON texts

    An instance of the [parseJSON] parameter, used to run the functions
    above on concrete deliveries.  It follows the JSON grammar (ECMA-404)
    with two limits: numbers are integers, and [\u] escapes of surrogate
    code units are not read.  Its diagnostics are its own. *)

Module JSONText.

Inductive outcome (A : Type) : Type :=
| Parsed (a : A) (rest : string)
| Failed (diagnostic : string).

Arguments Parsed {A} a rest.
Arguments Failed {A} diagnostic.

Definition unexpected (s : string) : string :=
  match s with
  | EmptyString => "Unexpected end of JSON input"
  | String c _ => "Unexpected token " +++ String c EmptyString +++ " in JSON"
  end.

Definition is_ws (c : ascii) : bool :=
  (code c =? 32) || (code c =? 9) || (code c =? 10) || (code c =? 13).

Fixpoint skip_ws (s : string) : string :=
  match s with
  | String c r => if is_ws c then skip_ws r else s
  | EmptyString => s
  end.

Definition hex_value (c : ascii) : option Z :=
  if is_digit c then Some (code c - 48)
  else if (97 <=? code c) && (code c <=? 102) then Some (code c - 87)
  else if (65 <=? code c) && (code c <=? 70) then Some (code c - 55)
  else None.

Definition char_of (z : Z) : ascii := ascii_of_N (Z.to_N z).

(** The UTF-8 encoding of a code point of the basic plane. *)
Definition utf8 (cp : Z) : string :=
  if cp <? 128 then String (char_of cp) EmptyString
  else if cp <? 2048
  then String (char_of (192 + cp / 64))
         (String (char_of (128 + cp mod 64)) EmptyString)
  else String (char_of (224 + cp / 4096))
         (String (char_of (128 + (cp / 64) mod 64))
            (String (char_of (128 + cp mod 64)) EmptyString)).

Definition simple_escape (c : ascii) : option ascii :=
  match c with
  | "034"%char => Some "034"%char
  | "\"%char => Some "\"%char
  | "/"%char => Some "/"%char
  | "b"%char => Some (char_of 8)
  | "f"%char => Some (char_of 12)
  | "n"%char => Some (char_of 10)
  | "r"%char => Some (char_of 13)
  | "t"%char => Some (char_of 9)
  | _ => None
  end.

(** The characters of a string after its opening quote. *)
Fixpoint read_chars (s : string) : outcome string :=
  match s with
  | EmptyString => Failed (unexpected s)
  | String "034" r => Parsed EmptyString r
  | String "\" (String "u" (String h1 (String h2 (String h3 (String h4 r))))) =>
      match hex_value h1, hex_value h2, hex_value h3, hex_value h4 with
      | Some a, Some b, Some c, Some d =>
          let cp := ((a * 16 + b) * 16 + c) * 16 + d in
          if (55296 <=? cp) && (cp <=? 57343)
          then Failed "Surrogate escape not read"
          else match read_chars r with
               | Parsed t rest => Parsed (utf8 cp +++ t) rest
               | Failed d => Failed d
               end
      | _, _, _, _ => Failed "Bad Unicode escape in JSON"
      end
  | String "\" (String e r) =>
      match simple_escape e with
      | Some c =>
          match read_chars r with
          | Parsed t rest => Parsed (String c t) rest
          | Failed d => Failed d
          end
      | None => Failed "Bad escaped character in JSON"
      end
  | String c r =>
      if code c <? 32 then Failed "Bad control character in string literal in JSON"
      else match read_chars r with
           | Parsed t rest => Parsed (String c t) rest
           | Failed d => Failed d
           end
  end.

(** The digits at the head of [s] and what follows them. *)
Fixpoint span_digits (s : string) : string * string :=
  match s with
  | String c r =>
      if is_digit c
      then let (ds, rest) := span_digits r in (String c ds, rest)
      else (EmptyString, s)
  | EmptyString => (EmptyString, s)
  end.

Definition read_number (s : string) : outcome JSValue :=
  let (sign, body) := match s with
                      | String "-" r => (-1, r)
                      | _ => (1, s)
                      end in
  let (ds, rest) := span_digits body in
  match ds with
  | EmptyString => Failed (unexpected body)
  | String "0" (String _ _) => Failed "Unexpected number in JSON"
  | _ =>
      match rest with
      | String "." _ | String "e" _ | String "E" _ =>
          Failed "Fraction or exponent not read"
      | _ =>
          Parsed (JSNumber (round_to_double
                              (sign * or_default (leading_digits ds None) 0))) rest
      end
  end.

(** [CreateDataProperty]: a repeated key keeps its place and takes the
    later value. *)
Fixpoint set_property (props : list (string * JSValue)) (k : string) (v : JSValue)
  : list (string * JSValue) :=
  match props with
  | [] => [(k, v)]
  | (k', v') :: rest =>
      if String.eqb k' k then (k', v) :: rest
      else (k', v') :: set_property rest k v
  end.

Fixpoint read_value (fuel : nat) (s : string) : outcome JSValue :=
  match fuel with
  | O => Failed "Nesting too deep"
  | S f =>
      match skip_ws s with
      | String "{" r =>
          match skip_ws r with
          | String "}" rest => Parsed (JSObject []) rest
          | members => read_members f members []
          end
      | String "[" r =>
          match skip_ws r with
          | String "]" rest => Parsed (JSArray []) rest
          | elements => read_elements f elements []
          end
      | String "034" r =>
          match read_chars r with
          | Parsed t rest => Parsed (JSString t) rest
          | Failed d => Failed d
          end
      | token =>
          if startsWith token "true" then Parsed (JSBoolean true) (slice token 4)
          else if startsWith token "false" then Parsed (JSBoolean false) (slice token 5)
          else if startsWith token "null" then Parsed JSNull (slice token 4)
          else read_number token
      end
  end

with read_elements (fuel : nat) (s : string) (acc : list JSValue)
  : outcome JSValue :=
  match fuel with
  | O => Failed "Nesting too deep"
  | S f =>
      match read_value f s with
      | Parsed v rest =>
          match skip_ws rest with
          | String "," more => read_elements f more (acc ++ [v])
          | String "]" after => Parsed (JSArray (acc ++ [v])) after
          | other => Failed (unexpected other)
          end
      | Failed d => Failed d
      end
  end

with read_members (fuel : nat) (s : string) (acc : list (string * JSValue))
  : outcome JSValue :=
  match fuel with
  | O => Failed "Nesting too deep"
  | S f =>
      match skip_ws s with
      | String "034" r =>
          match read_chars r with
          | Parsed k rest =>
              match skip_ws rest with
              | String ":" after_colon =>
                  match read_value f after_colon with
                  | Parsed v rest' =>
                      match skip_ws rest' with
                      | String "," more => read_members f more (set_property acc k v)
                      | String "}" after => Parsed (JSObject (set_property acc k v)) after
                      | other => Failed (unexpected other)
                      end
                  | Failed d => Failed d
                  end
              | other => Failed (unexpected other)
              end
          | Failed d => Failed d
          end
      | other => Failed (unexpected other)
      end
  end.

Definition parse (text : string) : completion JSValue :=
  match read_value (2 * String.length text + 2) text with
  | Parsed v rest =>
      match skip_ws rest with
      | EmptyString => Normal v
      | other => Throw (new_Error SyntaxError "SyntaxError" (unexpected other))
      end
  | Failed d => Throw (new_Error SyntaxError "SyntaxError" d)
  end.

End JSONText.

(** ** Vocabulary of the statements *)

(** The failure kinds of the verification pipeline.  The pipeline throws
    plain [Error] objects, so a kind is read off the class and the
    message. *)
Inductive FailureKind : Type :=
| AuthenticationFailure
| ParseFailure
| MissingField (field : string)
| MissingHeader (header : string).

Definition failure_kind (e : JSError) : option FailureKind :=
  if negb (ErrorClass_eqb (class e) Error) then None
  else if String.eqb (message e) "Invalid webhook signature"
  then Some AuthenticationFailure
  else if startsWith (message e) "Invalid JSON payload: "
  then Some ParseFailure
  else if String.eqb (message e) "Missing 'event' field in payload"
  then Some (MissingField "event")
  else if String.eqb (message e) "Missing 'timestamp' field in payload"
  then Some (MissingField "timestamp")
  else if String.eqb (message e) "Missing 'data' field in payload"
  then Some (MissingField "data")
  else if String.eqb (message e) "Missing X-Webhook-Signature header"
  then Some (MissingHeader "X-Webhook-Signature")
  else if String.eqb (message e) "Missing X-Webhook-Timestamp header"
  then Some (MissingHeader "X-Webhook-Timestamp")
  else None.

(** The error a computation ended with, if it threw. *)
Definition thrown {A : Type} (r : completion A * World) : option JSError :=
  match fst r with
  | Throw e => Some e
  | Normal _ => None
  end.

(** The current epoch second, as [verifySignature] computes it. *)
Definition epoch_seconds (w : World) : Z := clock w / 1000.

(** The world after one more call of [JSON.parse]. *)
Definition after_parse (w : World) (text : string) : World :=
  mkWorld (clock w) (parsed w ++ [text]).

(** The supplied signature without its optional [sha256=] prefix. *)
Definition signature_value (signature : string) : string :=
  if startsWith signature "sha256=" then slice signature 7 else signature.

(** The timestamp [verifyAndParse] hands to [verifySignature]. *)
Definition normalized (t : string + number) : number :=
  match t with
  | inl s => parseInt10 s
  | inr n => n
  end.

(** A text begins with a decimal integer when, after white space and an
    optional sign, a digit comes first. *)
Definition begins_with_integer (s : string) : bool :=
  match snd (split_sign (trimStart s)) with
  | String c _ => is_digit c
  | EmptyString => false
  end.

(** The header names of a carrier, lower-cased, and the carriers that
    differ in the casing of names only. *)
Definition carrier_entries (c : HeaderCarrier) : list (string * string) :=
  match c with
  | FetchHeaders h => h
  | PlainObject entries => entries
  end.

Definition absent (c : HeaderCarrier) (lowerName : string) : Prop :=
  ~ In lowerName (map (fun e => toLowerCase (fst e)) (carrier_entries c)).

(** The values a carrier holds under a name, in the order of its entries. *)
Definition values_of (c : HeaderCarrier) (lowerName : string) : list string :=
  map snd (filter (fun e => String.eqb (toLowerCase (fst e)) lowerName)
                  (carrier_entries c)).

Definition same_but_casing (l1 l2 : list (string * string)) : Prop :=
  Forall2 (fun e1 e2 => toLowerCase (fst e1) = toLowerCase (fst e2)
                        /\ snd e1 = snd e2) l1 l2.

Inductive recased : HeaderCarrier -> HeaderCarrier -> Prop :=
| recased_fetch h1 h2 :
    same_but_casing h1 h2 -> recased (FetchHeaders h1) (FetchHeaders h2)
| recased_plain o1 o2 :
    same_but_casing o1 o2 -> recased (PlainObject o1) (PlainObject o2).

(** A JSON text written with single quotes in place of double quotes. *)
Definition single_quoted (s : string) : string :=
  string_of_list_ascii
    (map (fun c => if Ascii.eqb c "'" then "034"%char else c)
         (list_ascii_of_string s)).

(** The delivery of the end-to-end scenario. *)
Definition scenario_secret : string := "whsec_test".

Definition scenario_verifier : WebhookVerifier :=
  new_WebhookVerifier scenario_secret None.

Definition scenario_world : World := mkWorld 1700000000000 [].

Definition scenario_body : string :=
  single_quoted
    "{'event':'contact.created','timestamp':'2023-11-14T22:13:20Z','data':{'contactId':'c1'}}".

Definition truncated_body : string := single_quoted "{'event':'contact.created',".

(** The signature a sender holding [secret] computes for a delivery at
    the epoch second [T]: the digest of the decimal digits of [T], a dot
    and the body. *)
Definition sign (secret : string) (T : Z) (body : string) : string :=
  createHmac_sha256_hex secret (decimal T +++ "." +++ body).

(** The two tests of [verifySignature]: the window test, [true] when the
    timestamp passes it, and the digest the supplied value is compared
    with. *)
Definition within_window (self : WebhookVerifier) (w : World) (timestamp : number)
  : bool :=
  negb (number_gt (Math_abs (number_sub (Int (epoch_seconds w)) timestamp))
                  (Int (maxAgeSeconds self))).

Definition expected_digest (self : WebhookVerifier) (timestamp : number)
           (body : string) : string :=
  createHmac_sha256_hex (secret self) (Number_toString timestamp +++ "." +++ body).

(** The statements of [verifyAndParse] that follow the signature check. *)
Definition parse_and_validate (parseJSON : string -> completion JSValue)
           (body : string) (deliveryId : option string) : JS WebhookPayload :=
  data <- try_catch (JSON_parse parseJSON body)
            (fun e => throw (new_Error Error "Error"
                               ("Invalid JSON payload: " +++ message e))) ;;
  data_event <- GetV data "event" ;;
  if negb (ToBoolean data_event)
  then throw (new_Error Error "Error" "Missing 'event' field in payload")
  else
    data_timestamp <- GetV data "timestamp" ;;
    if negb (ToBoolean data_timestamp)
    then throw (new_Error Error "Error" "Missing 'timestamp' field in payload")
    else
      data_data <- GetV data "data" ;;
      if negb (ToBoolean data_data)
      then throw (new_Error Error "Error" "Missing 'data' field in payload")
      else
        ret (mkWebhookPayload data_event data_timestamp data_data
               (or_default deliveryId EmptyString)).

(** The error of a failed signature check. *)
Definition invalid_signature : JSError :=
  new_Error Error "Error" "Invalid webhook signature".

(** ** errors.ts: [instanceof] *)

(** [c] is [ancestor] or one of its subclasses; the hierarchy is two
    levels deep. *)
Fixpoint inherits (fuel : nat) (c ancestor : ErrorClass) : bool :=
  ErrorClass_eqb c ancestor
  || match fuel, extends c with
     | S f, Some parent => inherits f parent ancestor
     | _, _ => false
     end.

(** [e instanceof C] *)
Definition instanceOf (e : JSError) (C : ErrorClass) : bool :=
  inherits 2 (class e) C.

(** ** client.ts: the client and [request] *)

Record EZUnsubClientOptions : Type := mkEZUnsubClientOptions
  { options_apiKey : string;
    options_baseUrl : option string;
    options_timeout : option Z }.

Record EZUnsubClient : Type := mkEZUnsubClient
  { apiKey : string;
    baseUrl : string;
    timeout : Z }.

(** [s.replace(/\/$/, '')]: one slash at the very end is removed. *)
Fixpoint remove_trailing_slash (s : string) : string :=
  match s with
  | EmptyString => EmptyString
  | String c EmptyString => if Ascii.eqb c "/" then EmptyString else s
  | String c r => String c (remove_trailing_slash r)
  end.

Definition new_EZUnsubClient (options : EZUnsubClientOptions) : EZUnsubClient :=
  mkEZUnsubClient
    (options_apiKey options)
    (remove_trailing_slash
       (or_default (options_baseUrl options) "https://api.ezunsub.com"))
    (or_default (options_timeout options) 30000).

(** A query parameter: [string | number | boolean | undefined]. *)
Inductive ParamValue : Type :=
| ParamString (s : string)
| ParamNumber (n : number)
| ParamBoolean (b : bool)
| ParamUndefined.

(** [String(value)] *)
Definition String_of (value : ParamValue) : string :=
  match value with
  | ParamString s => s
  | ParamNumber n => Number_toString n
  | ParamBoolean true => "true"
  | ParamBoolean false => "false"
  | ParamUndefined => "undefined"
  end.

(** A parsed URL: its query as the list of name-value pairs behind
    [searchParams], and the rest of it. *)
Record URL : Type := mkURL
  { location : string;
    searchParams : list (string * string) }.

(** [URLSearchParams.set] (URL Standard): the first pair of that name
    takes the value and the other pairs of that name are removed; without
    such a pair, one is appended. *)
Fixpoint URLSearchParams_set (l : list (string * string)) (name value : string)
  : list (string * string) :=
  match l with
  | [] => [(name, value)]
  | (k, v) :: rest =>
      if String.eqb k name
      then (k, value) :: filter (fun e => negb (String.eqb (fst e) name)) rest
      else (k, v) :: URLSearchParams_set rest name value
  end.

(** [URLSearchParams.get]: the value of the first pair of that name. *)
Definition URLSearchParams_get (l : list (string * string)) (name : string)
  : option string :=
  lookup name l.

(** The second argument of [request]. *)
Module RequestOptions.
Record t : Type := make
  { json : option JSValue;
    params : option (list (string * ParamValue)) }.
End RequestOptions.

(** The second argument of [fetch], without the abort signal. *)
Module RequestInit.
Record t : Type := make
  { method : string;
    headers : list (string * string);
    body : option string }.
End RequestInit.

(** The loop over [Object.entries(options.params)]. *)
Definition set_params (url : URL) (params : list (string * ParamValue)) : URL :=
  fold_left
    (fun u entry =>
       match snd entry with
       | ParamUndefined => u
       | value =>
           mkURL (location u)
                 (URLSearchParams_set (searchParams u) (fst entry) (String_of value))
       end)
    params url.

Section Client.

(** The platform under [request]: [JSON.parse], [JSON.stringify],
    [new URL(path, base)], [url.toString()], and [fetch], whose outcome
    is the response or the error it rejects with (an abort after the
    timeout is one of these). *)
Variable parseJSON : string -> completion JSValue.
Variable stringifyJSON : JSValue -> completion (option string).
Variable new_URL : string -> string -> completion URL.
Variable URL_toString : URL -> string.
Variable fetch : string -> RequestInit.t -> completion Response.

(** [return this.handleResponse<T>(response)] hands the promise of
    [handleResponse] back without awaiting it, so a rejection of that
    promise does not pass through the [catch] of [request]; [new URL] is
    evaluated before the [try]. *)
Definition request (self : EZUnsubClient) (method path : string)
           (options : option RequestOptions.t) : JS JSValue :=
  url <- lift (new_URL path (baseUrl self)) ;;
  let url := match options with
             | Some o =>
                 match RequestOptions.params o with
                 | Some params => set_params url params
                 | None => url
                 end
             | None => url
             end in
  response <-
    try_catch
      (body <- match options with
               | Some o =>
                   match RequestOptions.json o with
                   | Some json =>
                       if ToBoolean json then lift (stringifyJSON json)
                       else ret None
                   | None => ret None
                   end
               | None => ret None
               end ;;
       lift (fetch (URL_toString url)
               (RequestInit.make method
                  [("x-api-key", apiKey self);
                   ("Content-Type", "application/json");
                   ("User-Agent", "ezunsub-typescript/0.1.0")]
                  body)))
      (fun error =>
         if instanceOf error EZUnsubError then throw error
         else throw (new_EZUnsubError ("Request failed: " +++ message error) None)) ;;
  handleResponse parseJSON response.

(** [ContactsResource] *)

Record ContactsListOptions : Type := mkContactsListOptions
  { page : option number;
    limit : option number;
    linkCode : option string }.

Definition ContactsResource_list (client : EZUnsubClient)
           (options : option ContactsListOptions) : JS JSValue :=
  request client "GET" "/api/contacts"
    (Some (RequestOptions.make None
             (Some [("page",
                     ParamNumber
                       (or_default (match options with
                                    | Some o => page o
                                    | None => None
                                    end) (Int 1)));
                    ("limit",
                     ParamNumber
                       (or_default (match options with
                                    | Some o => limit o
                                    | None => None
                                    end) (Int 50)));
                    ("linkCode",
                     match options with
                     | Some o =>
                         match linkCode o with
                         | Some code => ParamString code
                         | None => ParamUndefined
                         end
                     | None => ParamUndefined
                     end)]))).

Definition ContactsResource_get (client : EZUnsubClient) (contactId : string)
  : JS JSValue :=
  request client "GET" ("/api/contacts/" +++ contactId) None.

Definition ContactsResource_delete (client : EZUnsubClient) (contactId : string)
  : JS JSValue :=
  request client "DELETE" ("/api/contacts/" +++ contactId) None.

Definition ContactsResource_stats (client : EZUnsubClient) : JS JSValue :=
  request client "GET" "/api/contacts/stats" None.

End Client.

(** The part of [request] that follows the URL: the guarded [fetch], then
    the response handler. *)
Definition send (parseJSON : string -> completion JSValue)
           (stringifyJSON : JSValue -> completion (option string))
           (URL_toString : URL -> string)
           (fetch : string -> RequestInit.t -> completion Response)
           (self : EZUnsubClient) (method : string) (url : URL)
           (json : option JSValue) : JS JSValue :=
  response <-
    try_catch
      (body <- match json with
               | Some json =>
                   if ToBoolean json then lift (stringifyJSON json)
                   else ret None
               | None => ret None
               end ;;
       lift (fetch (URL_toString url)
               (RequestInit.make method
                  [("x-api-key", apiKey self);
                   ("Content-Type", "application/json");
                   ("User-Agent", "ezunsub-typescript/0.1.0")]
                  body)))
      (fun error =>
         if instanceOf error EZUnsubError then throw error
         else throw (new_EZUnsubError ("Request failed: " +++ message error) None)) ;;
  handleResponse parseJSON response.

(** A text that does not go on with a digit. *)
Definition no_leading_digit (s : string) : bool :=
  match s with
  | EmptyString => true
  | String c _ => negb (is_digit c)
  end.

(** What [parseJson] makes of a response body: the parsed value, or
    [null] for an empty body and for one that does not parse; and the
    world after it, in which only a non-empty body has been parsed. *)
Definition body_value (parseJSON : string -> completion JSValue)
           (text : string) : JSValue :=
  if nonempty text
  then match parseJSON text with
       | Normal v => v
       | Throw _ => JSNull
       end
  else JSNull.

Definition world_after_body (w : World) (text : string) : World :=
  if nonempty text then after_parse w text else w.

(** The [error] value the handler reads off a response body, and whether
    [ToString] converts a value. *)
Definition error_value (parseJSON : string -> completion JSValue)
           (text : string) : JSValue :=
  optional_get (body_value parseJSON text) "error".

Definition convertible (v : JSValue) : bool :=
  match ToString v with
  | Normal _ => true
  | Throw _ => false
  end.

(** [throw new C(message)] for a message whose conversion may fail. *)
Definition throw_with_message (message : completion string)
           (make : string -> JSError) : completion JSValue :=
  match message with
  | Normal m => Throw (make m)
  | Throw e => Throw e
  end.

(** The URL [request] fetches and the JSON value it sends, read off its
    options. *)
Definition request_url (options : option RequestOptions.t) (url : URL) : URL :=
  match options with
  | Some o =>
      match RequestOptions.params o with
      | Some params => set_params url params
      | None => url
      end
  | None => url
  end.

Definition request_json (options : option RequestOptions.t) : option JSValue :=
  match options with
  | Some o => RequestOptions.json o
  | None => None
  end.

(** A platform to run [request] on: URLs are kept as written, nothing is
    serialized, and the network is down. *)
Definition sample_new_URL (path base : string) : completion URL :=
  Normal (mkURL (base +++ path) []).

Definition sample_stringify (v : JSValue) : completion (option string) :=
  Normal None.

Definition sample_fetch_down (url : string) (init : RequestInit.t)
  : completion Response :=
  Throw (new_Error TypeError "TypeError" "fetch failed").

(** A network that answers every request with the same response. *)
Definition sample_fetch_answer (r : Response) (url : string) (init : RequestInit.t)
  : completion Response :=
  Normal r.

Definition sample_client : EZUnsubClient :=
  new_EZUnsubClient (mkEZUnsubClientOptions "key-1" None None).

(** What the [catch] of [request] throws for a caught error. *)
Definition rethrown (error : JSError) : JSError :=
  if instanceOf error EZUnsubError then error
  else new_EZUnsubError ("Request failed: " +++ message error) None.

(** * Properties *)

(** ** The digest *)

Example sha256_abc :
  hex_of_bytes (SHA256.digest (bytes_of_string "abc"))
  = "ba7816bf8f01cfea414140de5dae2223b00361a396177a9cb410ff61f20015ad"%string.
Proof. vm_compute. reflexivity. Qed.

Example sha256_empty :
  hex_of_bytes (SHA256.digest [])
  = "e3b0c44298fc1c149afbf4c8996fb92427ae41e4649b934ca495991b7852b855"%string.
Proof. vm_compute. reflexivity. Qed.

Example sha256_three_blocks :
  hex_of_bytes (SHA256.digest (repeat 97 200))
  = "c2a908d98f5df987ade41b5fce213067efbcc21ef2240212a41e54b5e7c28ae5"%string.
Proof. vm_compute. reflexivity. Qed.

Example hmac_fox :
  createHmac_sha256_hex "key" "The quick brown fox jumps over the lazy dog"
  = "f7bc83f430538424b13298e6aa6fb143ef4d59a14946175997479dbc2d1a3cd8"%string.
Proof. vm_compute. reflexivity. Qed.

Example hmac_long_key :
  hex_of_bytes (HMAC.hmac_sha256 (repeat 107 100) (bytes_of_string "long key"))
  = "5903eedefe0bba3f15b658715e41d71f1848739bddf19e497e968df5723dcd56"%string.
Proof. vm_compute. reflexivity. Qed.

Lemma state_bytes_length (s : SHA256.state) :
  length (SHA256.state_bytes s) = 32%nat.
Proof. reflexivity. Qed.

Lemma digest_length (msg : list Z) : length (SHA256.digest msg) = 32%nat.
Proof. unfold SHA256.digest. apply state_bytes_length. Qed.

Lemma hex_of_bytes_length (bs : list Z) :
  String.length (hex_of_bytes bs) = (2 * length bs)%nat.
Proof.
  induction bs as [|b bs IH]; simpl; [reflexivity|].
  rewrite IH. lia.
Qed.

Lemma hex_digit_is_hex (n : Z) : is_hex_digit (hex_digit n) = true.
Proof.
  unfold hex_digit. generalize (Z.to_nat n). intro m.
  do 16 (destruct m as [|m]; [reflexivity|]).
  destruct m; reflexivity.
Qed.

Lemma createHmac_sha256_hex_length (secret message : string) :
  String.length (createHmac_sha256_hex secret message) = 64%nat.
Proof.
  unfold createHmac_sha256_hex, HMAC.hmac_sha256.
  rewrite hex_of_bytes_length, digest_length. reflexivity.
Qed.

Lemma state_bytes_cons (s : SHA256.state) :
  exists b rest, SHA256.state_bytes s = b :: rest.
Proof. do 2 eexists. reflexivity. Qed.

Lemma hex_digit_not_s (n : Z) : hex_digit n <> "s"%char.
Proof.
  intro H. pose proof (hex_digit_is_hex n) as Hhex.
  rewrite H in Hhex. discriminate Hhex.
Qed.

(** A digest never carries the [sha256=] prefix: its first character is a
    hexadecimal digit. *)
Lemma createHmac_sha256_hex_unprefixed (secret message : string) :
  startsWith (createHmac_sha256_hex secret message) "sha256=" = false.
Proof.
  unfold createHmac_sha256_hex, HMAC.hmac_sha256.
  set (outer := (_ ++ _)). unfold SHA256.digest at 1.
  destruct (state_bytes_cons
              (fold_left SHA256.compress
                 (SHA256.blocks_of_words
                    (length (SHA256.words_of_bytes (length (SHA256.pad outer))
                                                   (SHA256.pad outer)))
                    (SHA256.words_of_bytes (length (SHA256.pad outer))
                                           (SHA256.pad outer)))
                 SHA256.initial)) as (b & rest & ->).
  cbn [hex_of_bytes startsWith].
  destruct (Ascii.eqb_spec "s" (hex_digit (b / 16))) as [E|E]; [|reflexivity].
  symmetry in E. apply hex_digit_not_s in E. contradiction.
Qed.

Lemma signature_value_of_digest (secret message : string) :
  signature_value (createHmac_sha256_hex secret message)
  = createHmac_sha256_hex secret message.
Proof.
  unfold signature_value. now rewrite createHmac_sha256_hex_unprefixed.
Qed.

Lemma slice_append (p s : string) : slice (p +++ s) (String.length p) = s.
Proof. induction p as [|c p IH]; [destruct s|]; simpl; auto. Qed.

Lemma startsWith_append (p s : string) : startsWith (p +++ s) p = true.
Proof.
  induction p as [|c p IH]; simpl; [reflexivity|].
  now rewrite Ascii.eqb_refl.
Qed.

(** With or without the prefix, the compared value is the same. *)
Lemma signature_value_prefixed (s : string) :
  signature_value ("sha256=" +++ s) = s.
Proof.
  unfold signature_value.
  rewrite (startsWith_append "sha256=" s).
  exact (slice_append "sha256=" s).
Qed.

(** ** The constant-time comparison *)

Lemma code_inj (a b : ascii) : code a = code b -> a = b.
Proof.
  unfold code. intro H. apply N2Z.inj in H.
  rewrite <- (ascii_N_embedding a), <- (ascii_N_embedding b). now rewrite H.
Qed.

Lemma bytes_of_string_inj (s t : string) :
  bytes_of_string s = bytes_of_string t -> s = t.
Proof.
  unfold bytes_of_string. revert t.
  induction s as [|c s IH]; intros [|d t] H; simpl in H;
    try discriminate; [reflexivity|].
  injection H as Hc Hs. f_equal; [now apply code_inj | now apply IH].
Qed.

Lemma bytes_of_string_length (s : string) :
  length (bytes_of_string s) = String.length s.
Proof.
  unfold bytes_of_string. induction s as [|c s IH]; simpl; congruence.
Qed.

Lemma accumulate_xor_zero (a b : list Z) (acc : Z) :
  length a = length b ->
  accumulate_xor a b acc = 0 <-> acc = 0 /\ a = b.
Proof.
  revert b acc. induction a as [|x a IH]; intros [|y b] acc Hlen;
    simpl in *; try discriminate.
  - tauto.
  - injection Hlen as Hlen. rewrite (IH b _ Hlen), Z.lor_eq_0_iff, Z.lxor_eq_0_iff.
    split.
    + intros [[-> ->] ->]. auto.
    + intros [-> E]. injection E as -> ->. auto.
Qed.

Lemma timingSafeEqual_same_length (a b : list Z) (w : World) :
  length a = length b ->
  timingSafeEqual a b w = (Normal (if list_eq_dec Z.eq_dec a b then true else false), w).
Proof.
  intro Hlen. unfold timingSafeEqual. rewrite Hlen, Nat.eqb_refl.
  unfold ret. f_equal. f_equal.
  pose proof (accumulate_xor_zero a b 0 Hlen) as Hz.
  destruct (list_eq_dec Z.eq_dec a b) as [E|E].
  - apply Z.eqb_eq, Hz. auto.
  - apply Z.eqb_neq. intro H. apply Hz in H. tauto.
Qed.

(** Buffers of different byte lengths make the comparison raise. *)
Lemma timingSafeEqual_length_mismatch (a b : list Z) (w : World) :
  length a <> length b ->
  timingSafeEqual a b w
  = (Throw (new_Error RangeError "RangeError"
                      "Input buffers must have the same byte length"), w).
Proof.
  intro Hlen. unfold timingSafeEqual.
  apply Nat.eqb_neq in Hlen. now rewrite Hlen.
Qed.

(** The guarded comparison of [verifySignature] is string equality. *)
Lemma guarded_compare_run (expected sigValue : string) (w : World) :
  try_catch (timingSafeEqual (Buffer_from expected) (Buffer_from sigValue))
            (fun _ => ret false) w
  = (Normal (String.eqb expected sigValue), w).
Proof.
  unfold try_catch, Buffer_from.
  destruct (Nat.eq_dec (length (bytes_of_string expected))
                       (length (bytes_of_string sigValue))) as [Hlen|Hlen].
  - rewrite (timingSafeEqual_same_length _ _ w Hlen).
    destruct (list_eq_dec Z.eq_dec _ _) as [E|E].
    + apply bytes_of_string_inj in E. subst. now rewrite String.eqb_refl.
    + destruct (String.eqb_spec expected sigValue) as [->|]; [|reflexivity].
      contradiction.
  - rewrite (timingSafeEqual_length_mismatch _ _ w Hlen).
    destruct (String.eqb_spec expected sigValue) as [->|]; [|reflexivity].
    contradiction.
Qed.

(** ** [verifySignature] *)

(** What a call of [verifySignature] comes to: the window test, then the
    comparison of the digest with the supplied value; the world is left as
    it was. *)
Lemma verifySignature_run (self : WebhookVerifier) (signature : string)
      (timestamp : number) (body : string) (w : World) :
  verifySignature self signature timestamp body w
  = (Normal
       (negb (number_gt (Math_abs (number_sub (Int (epoch_seconds w)) timestamp))
                        (Int (maxAgeSeconds self)))
        && String.eqb
             (createHmac_sha256_hex (secret self)
                (Number_toString timestamp +++ "." +++ body))
             (signature_value signature)), w).
Proof.
  unfold verifySignature, bind, Date_now, epoch_seconds.
  destruct (number_gt _ _); [reflexivity|].
  apply guarded_compare_run.
Qed.

(** ** Doubles *)

Lemma round_magnitude_small (z : Z) : z < 2 ^ 53 -> round_magnitude z = z.
Proof.
  intro H. unfold round_magnitude.
  replace (z <? 2 ^ 53) with true by (symmetry; apply Z.ltb_lt; exact H).
  reflexivity.
Qed.

Lemma round_magnitude_exact (z : Z) : z <= 2 ^ 53 -> round_magnitude z = z.
Proof.
  intro H. destruct (Z.eq_dec z (2 ^ 53)) as [->|Hne].
  - vm_compute. reflexivity.
  - apply round_magnitude_small. lia.
Qed.

(** Up to [2^53] in magnitude every integer is a double. *)
Lemma round_to_double_exact (z : Z) : Z.abs z <= 2 ^ 53 -> round_to_double z = Int z.
Proof.
  intro H. unfold round_to_double. rewrite (round_magnitude_exact _ H).
  replace (2 ^ 1024 <=? Z.abs z) with false.
  - f_equal. rewrite Z.mul_comm. apply Z.abs_sgn.
  - symmetry. apply Z.leb_gt.
    apply Z.le_lt_trans with (2 ^ 53); [exact H|].
    apply Z.pow_lt_mono_r; lia.
Qed.

(** The parts of a magnitude from [2^53] up. *)
Lemma round_magnitude_large (z : Z) :
  2 ^ 53 <= z ->
  let e := Z.log2 z - 52 in
  1 <= e
  /\ 2 ^ 52 <= z / 2 ^ e
  /\ (round_magnitude z = z / 2 ^ e * 2 ^ e
      \/ (round_magnitude z = (z / 2 ^ e + 1) * 2 ^ e /\ 0 < z mod 2 ^ e)).
Proof.
  intros Hz e.
  assert (Hpos : 0 < z) by (pose proof (Z.pow_pos_nonneg 2 53); lia).
  assert (He : 1 <= e).
  { unfold e. assert (53 <= Z.log2 z) by (apply Z.log2_le_pow2; lia). lia. }
  assert (HP : 0 < 2 ^ e) by (apply Z.pow_pos_nonneg; lia).
  split; [exact He|]. split.
  - apply Z.div_le_lower_bound; [exact HP|].
    rewrite Z.mul_comm, <- Z.pow_add_r by lia.
    replace (52 + e) with (Z.log2 z) by (unfold e; lia).
    apply Z.log2_spec. exact Hpos.
  - unfold round_magnitude.
    replace (z <? 2 ^ 53) with false by (symmetry; apply Z.ltb_ge; exact Hz).
    fold e.
    assert (Hhalf : 0 < 2 ^ (e - 1)) by (apply Z.pow_pos_nonneg; lia).
    destruct ((2 ^ (e - 1) <? z mod 2 ^ e)
              || ((z mod 2 ^ e =? 2 ^ (e - 1)) && Z.odd (z / 2 ^ e))) eqn:Hup.
    + right. split; [reflexivity|].
      apply orb_true_iff in Hup as [H|H].
      * apply Z.ltb_lt in H. lia.
      * apply andb_true_iff in H as [H _]. apply Z.eqb_eq in H. lia.
    + left. reflexivity.
Qed.

Lemma round_magnitude_lower (z : Z) : 2 ^ 53 <= z -> 2 ^ 53 <= round_magnitude z.
Proof.
  intro Hz. destruct (round_magnitude_large z Hz) as (He & Hq & Hr).
  set (e := Z.log2 z - 52) in *.
  assert (HP : 2 <= 2 ^ e).
  { change 2 with (2 ^ 1) at 1. apply Z.pow_le_mono_r; lia. }
  assert (H53 : 2 ^ 53 = 2 ^ 52 * 2) by reflexivity.
  destruct Hr as [->|[-> _]]; rewrite H53; apply Z.mul_le_mono_nonneg; lia.
Qed.

Lemma round_magnitude_nonneg (z : Z) : 0 <= z -> 0 <= round_magnitude z.
Proof.
  intro Hz. destruct (Z_lt_le_dec z (2 ^ 53)) as [H|H].
  - now rewrite round_magnitude_small.
  - pose proof (round_magnitude_lower z H). lia.
Qed.

(** Rounding does not pass a double: a magnitude that is not above a
    double rounds to a double that is not above it. *)
Lemma round_magnitude_le_fixed (x m : Z) :
  0 <= x <= m -> round_magnitude m = m -> round_magnitude x <= m.
Proof.
  intros [Hx Hxm] Hm.
  destruct (Z_lt_le_dec x (2 ^ 53)) as [Hs|Hl].
  { now rewrite round_magnitude_small. }
  assert (Hml : 2 ^ 53 <= m) by lia.
  destruct (round_magnitude_large x Hl) as (He & _ & Hr).
  destruct (round_magnitude_large m Hml) as (Hem & _ & Hrm).
  set (e := Z.log2 x - 52) in *. set (em := Z.log2 m - 52) in *.
  assert (Hle : e <= em).
  { unfold e, em.
    assert (Z.log2 x <= Z.log2 m) by (apply Z.log2_le_mono; exact Hxm). lia. }
  assert (HP : 0 < 2 ^ e) by (apply Z.pow_pos_nonneg; lia).
  assert (Hsplit : 2 ^ em = 2 ^ (em - e) * 2 ^ e).
  { rewrite <- Z.pow_add_r by lia. f_equal. lia. }
  assert (Hmult : exists c, m = c * 2 ^ e).
  { rewrite Hm in Hrm.
    destruct Hrm as [E|[E _]]; rewrite Hsplit, Z.mul_assoc in E;
      eexists; exact E. }
  destruct Hmult as [c Hc].
  pose proof (Z.div_mod x (2 ^ e) ltac:(lia)) as Hdm.
  pose proof (Z.mod_pos_bound x (2 ^ e) HP) as Hmod.
  destruct Hr as [->|[-> Hr]].
  - rewrite Z.mul_comm. lia.
  - rewrite Hc. apply Z.mul_le_mono_nonneg_r; [lia|].
    assert (x / 2 ^ e < c); [|lia].
    apply (Z.mul_lt_mono_pos_r (2 ^ e)); [exact HP|]. rewrite <- Hc. lia.
Qed.

Lemma representable_fixed (m : Z) :
  0 <= m -> representable m -> round_magnitude m = m /\ m < 2 ^ 1024.
Proof.
  unfold representable, round_to_double. intros Hm H.
  rewrite (Z.abs_eq m Hm) in H.
  destruct (2 ^ 1024 <=? round_magnitude m) eqn:Hinf; [discriminate H|].
  apply Z.leb_gt in Hinf. injection H as H.
  destruct (Z.eq_dec m 0) as [->|Hne].
  - split; [reflexivity | lia].
  - rewrite Z.sgn_pos in H by lia. lia.
Qed.

Lemma representable_small (z : Z) : Z.abs z <= 2 ^ 53 -> representable z.
Proof. apply round_to_double_exact. Qed.

Lemma Math_abs_round (z : Z) :
  Math_abs (round_to_double z)
  = if 2 ^ 1024 <=? round_magnitude (Z.abs z) then Infinity false
    else Int (round_magnitude (Z.abs z)).
Proof.
  unfold round_to_double.
  destruct (2 ^ 1024 <=? round_magnitude (Z.abs z)); [reflexivity|].
  cbn [Math_abs]. f_equal.
  pose proof (round_magnitude_nonneg (Z.abs z) (Z.abs_nonneg z)) as Hn.
  rewrite Z.abs_mul, (Z.abs_eq (round_magnitude _) Hn).
  destruct z as [|p|p]; [reflexivity | |]; cbn [Z.sgn Z.abs]; lia.
Qed.

(** The window test of [verifySignature] on integers: the distance is
    rounded before it is compared. *)
Lemma window_test_int (now T maxAge : Z) :
  number_gt (Math_abs (number_sub (Int now) (Int T))) (Int maxAge)
  = ((2 ^ 1024 <=? round_magnitude (Z.abs (now - T)))
     || (maxAge <? round_magnitude (Z.abs (now - T)))).
Proof.
  cbn [number_sub]. rewrite Math_abs_round.
  destruct (2 ^ 1024 <=? _); reflexivity.
Qed.

(** Within a window that is a double the test passes. *)
Lemma window_test_within (now T maxAge : Z) :
  representable maxAge ->
  Z.abs (now - T) <= maxAge ->
  number_gt (Math_abs (number_sub (Int now) (Int T))) (Int maxAge) = false.
Proof.
  intros Hrep Hwin. rewrite window_test_int.
  pose proof (Z.abs_nonneg (now - T)) as Hn.
  destruct (representable_fixed maxAge ltac:(lia) Hrep) as [Hfix Hfin].
  pose proof (round_magnitude_le_fixed (Z.abs (now - T)) maxAge
                (conj Hn Hwin) Hfix) as Hle.
  apply orb_false_iff. split; [apply Z.leb_gt | apply Z.ltb_ge]; lia.
Qed.

(** Beyond a window below [2^53] the test fails. *)
Lemma window_test_beyond (now T maxAge : Z) :
  maxAge < 2 ^ 53 ->
  maxAge < Z.abs (now - T) ->
  number_gt (Math_abs (number_sub (Int now) (Int T))) (Int maxAge) = true.
Proof.
  intros Hsmall Hout. rewrite window_test_int.
  apply orb_true_iff. right. apply Z.ltb_lt.
  destruct (Z_lt_le_dec (Z.abs (now - T)) (2 ^ 53)) as [H|H].
  - now rewrite round_magnitude_small.
  - pose proof (round_magnitude_lower _ H). lia.
Qed.

(** A safe integer prints as its decimal digits. *)
Lemma Number_toString_safe (z : Z) :
  safe_integer z -> Number_toString (Int z) = decimal z.
Proof.
  unfold safe_integer, Number_toString, print_magnitude. intro H.
  destruct z as [|p|p].
  - reflexivity.
  - change (Z.pos p <? 0) with false. cbv iota.
    replace (Z.pos p <? 2 ^ 53) with true
      by (symmetry; apply Z.ltb_lt; exact H).
    reflexivity.
  - change (Z.neg p <? 0) with true. cbv iota.
    change (- Z.neg p) with (Z.pos p).
    replace (Z.pos p <? 2 ^ 53) with true
      by (symmetry; apply Z.ltb_lt; exact H).
    reflexivity.
Qed.

Example Number_toString_examples :
  Number_toString (Int 1700000000) = "1700000000"
  /\ Number_toString (Int (- 42)) = "-42"
  /\ Number_toString (Int (2 ^ 53)) = "9007199254740992"
  /\ Number_toString (Int (2 ^ 60)) = "1152921504606847000"
  /\ Number_toString (Int (2 ^ 70)) = "1.1805916207174113e+21"
  /\ Number_toString (Int (10 ^ 21)) = "1e+21"
  /\ Number_toString (Int (123456789012345680000)) = "123456789012345680000"
  /\ Number_toString (round_to_double (2 ^ 1024)) = "Infinity".
Proof. vm_compute. repeat split. Qed.

Example round_to_double_examples :
  round_to_double (2 ^ 53 + 1) = Int (2 ^ 53)
  /\ round_to_double (2 ^ 53 + 3) = Int (2 ^ 53 + 4)
  /\ round_to_double (- (2 ^ 53 + 1)) = Int (- 2 ^ 53)
  /\ round_to_double (10 ^ 22) = Int (10 ^ 22)
  /\ round_to_double (10 ^ 23) = Int 99999999999999991611392.
Proof. vm_compute. repeat split. Qed.

(** ** The replay window and the signature *)

(** A safe-integer timestamp within the window and the sender's signature
    pass. *)
Lemma verifySignature_signed_in_window (S B : string) (maxAge T : Z) (w : World) :
  safe_integer T ->
  representable maxAge ->
  Z.abs (epoch_seconds w - T) <= maxAge ->
  verifySignature (mkWebhookVerifier S maxAge) (sign S T B) (Int T) B w
  = (Normal true, w).
Proof.
  intros Hsafe Hrep Hwin.
  rewrite verifySignature_run. cbn [secret maxAgeSeconds].
  rewrite (window_test_within _ _ _ Hrep Hwin). unfold sign.
  rewrite (Number_toString_safe T Hsafe), signature_value_of_digest,
    String.eqb_refl.
  reflexivity.
Qed.

(** C2, as stated, at the timestamp [1e21] in a window of [1e22] seconds:
    the supplied value is the digest of the decimal string of the
    timestamp, a dot and the body, and [verifySignature] returns [false].
    The code signs what [Number::toString] prints, which is [1e+21]. *)
Theorem verifySignature_refuses_decimal_of_1e21 :
  representable (10 ^ 21)
  /\ representable (10 ^ 22)
  /\ Z.abs (epoch_seconds scenario_world - 10 ^ 21) <= 10 ^ 22
  /\ Number_toString (Int (10 ^ 21)) = "1e+21"
  /\ decimal (10 ^ 21) = "1000000000000000000000"
  /\ verifySignature (mkWebhookVerifier scenario_secret (10 ^ 22))
       (createHmac_sha256_hex scenario_secret
          (decimal (10 ^ 21) +++ "." +++ scenario_body))
       (Int (10 ^ 21)) scenario_body scenario_world
     = (Normal false, scenario_world).
Proof.
  split; [vm_compute; reflexivity|].
  split; [vm_compute; reflexivity|].
  split; [vm_compute; discriminate|].
  split; [vm_compute; reflexivity|].
  split; [vm_compute; reflexivity|].
  vm_compute. reflexivity.
Qed.

(** C2, amended.  For every secret, body and safe-integer timestamp [T]
    within [maxAgeSeconds] of the current second, [verifySignature]
    returns [true] on the lower-case hexadecimal HMAC-SHA256, under the
    secret, of the decimal string of [T], a dot and the body. *)
Theorem verifySignature_accepts_signed (S B : string) (maxAge T : Z) (w : World) :
  safe_integer T ->
  representable maxAge ->
  Z.abs (epoch_seconds w - T) <= maxAge ->
  verifySignature (mkWebhookVerifier S maxAge)
    (createHmac_sha256_hex S (decimal T +++ "." +++ B))
    (Int T) B w
  = (Normal true, w).
Proof.
  intros Hsafe Hrep Hwin.
  rewrite verifySignature_run. cbn [secret maxAgeSeconds].
  rewrite (window_test_within _ _ _ Hrep Hwin).
  rewrite (Number_toString_safe T Hsafe), signature_value_of_digest,
    String.eqb_refl.
  reflexivity.
Qed.

Lemma verifySignature_accepts_signed_witness :
  safe_integer 1700000000
  /\ representable 300
  /\ Z.abs (epoch_seconds scenario_world - 1700000000) <= 300
  /\ verifySignature (mkWebhookVerifier scenario_secret 300)
       (createHmac_sha256_hex scenario_secret
          (decimal 1700000000 +++ "." +++ scenario_body))
       (Int 1700000000) scenario_body scenario_world
     = (Normal true, scenario_world).
Proof.
  split; [vm_compute; reflexivity|].
  split; [vm_compute; reflexivity|].
  split; [vm_compute; discriminate|].
  apply (verifySignature_accepts_signed scenario_secret scenario_body 300
           1700000000 scenario_world).
  - vm_compute. reflexivity.
  - vm_compute. reflexivity.
  - vm_compute. discriminate.
Defined.

(** C3, as stated, fails at both ends.  With a window of [2^53] seconds
    and a timestamp [2^53 + 1] seconds in the past, the distance rounds to
    [2^53] and the sender's signature is accepted.  With the timestamp
    [2^60] at a distance of exactly [maxAgeSeconds], the sender's
    signature over the decimal string is refused. *)
Theorem replay_window_boundary_fails_on_large_numbers :
  (safe_integer (1700000000 - 2 ^ 53 - 1)
   /\ representable (2 ^ 53)
   /\ Z.abs (epoch_seconds scenario_world - (1700000000 - 2 ^ 53 - 1))
      = 2 ^ 53 + 1
   /\ verifySignature (mkWebhookVerifier scenario_secret (2 ^ 53))
        (sign scenario_secret (1700000000 - 2 ^ 53 - 1) scenario_body)
        (Int (1700000000 - 2 ^ 53 - 1)) scenario_body scenario_world
      = (Normal true, scenario_world))
  /\ (representable (2 ^ 60)
      /\ representable (2 ^ 60 - 1700000000)
      /\ Z.abs (epoch_seconds scenario_world - 2 ^ 60) = 2 ^ 60 - 1700000000
      /\ verifySignature (mkWebhookVerifier scenario_secret (2 ^ 60 - 1700000000))
           (sign scenario_secret (2 ^ 60) scenario_body)
           (Int (2 ^ 60)) scenario_body scenario_world
         = (Normal false, scenario_world)).
Proof.
  split.
  - split; [vm_compute; reflexivity|].
    split; [vm_compute; reflexivity|].
    split; [vm_compute; reflexivity|].
    vm_compute. reflexivity.
  - split; [vm_compute; reflexivity|].
    split; [vm_compute; reflexivity|].
    split; [vm_compute; reflexivity|].
    vm_compute. reflexivity.
Qed.

(** C3, amended.  For a safe-integer timestamp and a window below [2^53]
    seconds the window is symmetric and inclusive: at a distance of
    exactly [maxAgeSeconds] a correct signature is accepted, and at a
    distance of [maxAgeSeconds + 1], in the past or in the future, every
    signature is refused. *)
Theorem replay_window_boundary (S B signature : string) (maxAge T : Z) (w : World) :
  safe_integer T ->
  maxAge < 2 ^ 53 ->
  (Z.abs (epoch_seconds w - T) = maxAge ->
   verifySignature (mkWebhookVerifier S maxAge) (sign S T B) (Int T) B w
   = (Normal true, w))
  /\ (Z.abs (epoch_seconds w - T) = maxAge + 1 ->
      verifySignature (mkWebhookVerifier S maxAge) signature (Int T) B w
      = (Normal false, w)).
Proof.
  intros Hsafe Hsmall. split; intro Hd.
  - apply verifySignature_signed_in_window; [exact Hsafe | | lia].
    apply representable_small.
    pose proof (Z.abs_nonneg (epoch_seconds w - T)). lia.
  - rewrite verifySignature_run. cbn [maxAgeSeconds].
    rewrite (window_test_beyond _ _ _ Hsmall) by lia.
    reflexivity.
Qed.

Lemma replay_window_boundary_witness :
  (verifySignature (mkWebhookVerifier scenario_secret 300)
     (sign scenario_secret 1699999700 scenario_body) (Int 1699999700)
     scenario_body scenario_world
   = (Normal true, scenario_world)
   /\ verifySignature (mkWebhookVerifier scenario_secret 300)
        (sign scenario_secret 1700000300 scenario_body) (Int 1700000300)
        scenario_body scenario_world
      = (Normal true, scenario_world))
  /\ (verifySignature (mkWebhookVerifier scenario_secret 300)
        (sign scenario_secret 1699999699 scenario_body) (Int 1699999699)
        scenario_body scenario_world
      = (Normal false, scenario_world)
      /\ verifySignature (mkWebhookVerifier scenario_secret 300)
           (sign scenario_secret 1700000301 scenario_body) (Int 1700000301)
           scenario_body scenario_world
         = (Normal false, scenario_world)).
Proof.
  split; split.
  - apply (proj1 (replay_window_boundary scenario_secret scenario_body
                    EmptyString 300 1699999700 scenario_world
                    eq_refl eq_refl)).
    reflexivity.
  - apply (proj1 (replay_window_boundary scenario_secret scenario_body
                    EmptyString 300 1700000300 scenario_world
                    eq_refl eq_refl)).
    reflexivity.
  - apply (proj2 (replay_window_boundary scenario_secret scenario_body
                    (sign scenario_secret 1699999699 scenario_body)
                    300 1699999699 scenario_world eq_refl eq_refl)).
    reflexivity.
  - apply (proj2 (replay_window_boundary scenario_secret scenario_body
                    (sign scenario_secret 1700000301 scenario_body)
                    300 1700000301 scenario_world eq_refl eq_refl)).
    reflexivity.
Defined.

(** C4. [verifySignature] never raises: for every signature, timestamp
    and body it returns a boolean and leaves the world as it was.  When
    the compared value is not 64 characters long the constant-time
    comparison raises a [RangeError], and the result is [false]. *)
Theorem verifySignature_never_raises (self : WebhookVerifier)
        (signature : string) (timestamp : number) (body : string) (w : World) :
  exists b : bool,
    verifySignature self signature timestamp body w = (Normal b, w)
    /\ String.length (createHmac_sha256_hex (secret self)
                         (Number_toString timestamp +++ "." +++ body)) = 64%nat
    /\ (String.length (signature_value signature) <> 64%nat ->
        b = false
        /\ exists e,
            timingSafeEqual
              (Buffer_from (createHmac_sha256_hex (secret self)
                              (Number_toString timestamp +++ "." +++ body)))
              (Buffer_from (signature_value signature)) w
            = (Throw e, w)
            /\ class e = RangeError).
Proof.
  eexists. split; [apply verifySignature_run|].
  split; [apply createHmac_sha256_hex_length|].
  intro Hlen. split.
  - destruct (String.eqb_spec
                (createHmac_sha256_hex (secret self)
                   (Number_toString timestamp +++ "." +++ body))
                (signature_value signature)) as [E|E].
    + exfalso. apply Hlen. rewrite <- E. apply createHmac_sha256_hex_length.
    + apply andb_false_r.
  - eexists. split.
    + apply timingSafeEqual_length_mismatch. unfold Buffer_from.
      rewrite !bytes_of_string_length, createHmac_sha256_hex_length. congruence.
    + reflexivity.
Qed.

(** ** [verifyAndParse] *)

Section VerifyAndParse.

Variable parseJSON : string -> completion JSValue.

(** The signature check decides between the fixed failure and the rest
    of the function. *)
Lemma verifyAndParse_run (self : WebhookVerifier) (o : Options.t) (w : World) :
  verifyAndParse parseJSON self o w
  = match verifySignature self (Options.signature o)
                          (normalized (Options.timestamp o))
                          (Options.body o) w with
    | (Normal true, w') =>
        parse_and_validate parseJSON (Options.body o) (Options.deliveryId o) w'
    | (Normal false, w') => (Throw invalid_signature, w')
    | (Throw e, w') => (Throw e, w')
    end.
Proof.
  unfold verifyAndParse, normalized, bind at 1.
  destruct (verifySignature _ _ _ _ w) as [[[|]|e] w']; reflexivity.
Qed.

Lemma parse_and_validate_syntax_error (body : string) (d : option string)
      (e : JSError) (w : World) :
  parseJSON body = Throw e ->
  parse_and_validate parseJSON body d w
  = (Throw (new_Error Error "Error" ("Invalid JSON payload: " +++ message e)),
     after_parse w body).
Proof.
  intro H. unfold parse_and_validate, bind, try_catch, JSON_parse.
  rewrite H. reflexivity.
Qed.

Lemma parse_and_validate_null (body : string) (d : option string) (w : World) :
  parseJSON body = Normal JSNull ->
  parse_and_validate parseJSON body d w
  = (Throw (new_Error TypeError "TypeError"
              "Cannot read properties of null (reading 'event')"),
     after_parse w body).
Proof.
  intro H. unfold parse_and_validate, bind, try_catch, JSON_parse.
  rewrite H. reflexivity.
Qed.

(** On a parsed value other than [null] and [undefined] the three fields
    are tested in the order [event], [timestamp], [data]. *)
Lemma parse_and_validate_fields (body : string) (d : option string)
      (v : JSValue) (w : World) :
  parseJSON body = Normal v ->
  v <> JSNull -> v <> JSUndefined ->
  parse_and_validate parseJSON body d w
  = (if negb (ToBoolean (optional_get v "event"))
     then Throw (new_Error Error "Error" "Missing 'event' field in payload")
     else if negb (ToBoolean (optional_get v "timestamp"))
     then Throw (new_Error Error "Error" "Missing 'timestamp' field in payload")
     else if negb (ToBoolean (optional_get v "data"))
     then Throw (new_Error Error "Error" "Missing 'data' field in payload")
     else Normal (mkWebhookPayload (optional_get v "event")
                    (optional_get v "timestamp") (optional_get v "data")
                    (or_default d EmptyString)),
     after_parse w body).
Proof.
  intros H Hnull Hundef.
  unfold parse_and_validate, bind, try_catch, JSON_parse. rewrite H.
  destruct v; try contradiction; cbn [GetV optional_get ret];
    repeat (match goal with
            | |- context [ToBoolean ?x] => destruct (ToBoolean x)
            end; cbn [negb throw ret]); reflexivity.
Qed.

(** The statements after the signature check call [JSON.parse] once, on
    the body. *)
Lemma parse_and_validate_parses (body : string) (d : option string) (w : World) :
  snd (parse_and_validate parseJSON body d w) = after_parse w body.
Proof.
  destruct (parseJSON body) as [v|e] eqn:H.
  - destruct v;
      try (rewrite (parse_and_validate_fields body d _ w H); [reflexivity|discriminate|discriminate]).
    + unfold parse_and_validate, bind, try_catch, JSON_parse. rewrite H. reflexivity.
    + rewrite (parse_and_validate_null body d w H). reflexivity.
  - rewrite (parse_and_validate_syntax_error body d e w H). reflexivity.
Qed.

(** They never end with the error of a failed signature check. *)
Lemma parse_and_validate_not_invalid_signature
      (body : string) (d : option string) (w : World) :
  thrown (parse_and_validate parseJSON body d w) <> Some invalid_signature.
Proof.
  destruct (parseJSON body) as [v|e] eqn:H.
  - destruct v;
      try (rewrite (parse_and_validate_fields body d _ w H); [|discriminate|discriminate];
           unfold thrown; cbn [fst];
           repeat (match goal with
                   | |- context [ToBoolean ?x] => destruct (ToBoolean x)
                   end; cbn [negb]); discriminate).
    + unfold parse_and_validate, bind, try_catch, JSON_parse. rewrite H. discriminate.
    + rewrite (parse_and_validate_null body d w H). discriminate.
  - rewrite (parse_and_validate_syntax_error body d e w H). discriminate.
Qed.

End VerifyAndParse.

(** ** [parseInt] *)

Lemma leading_digits_some (s : string) (a : Z) :
  exists m, leading_digits s (Some a) = Some m.
Proof.
  revert a. induction s as [|c s IH]; intro a; simpl; [eauto|].
  destruct (is_digit c); eauto.
Qed.

Lemma parseInt10_NaN_iff (s : string) :
  parseInt10 s = NaN <-> begins_with_integer s = false.
Proof.
  unfold parseInt10, begins_with_integer.
  destruct (split_sign (trimStart s)) as [sg digits]. cbn [snd].
  destruct digits as [|c r]; cbn [leading_digits]; [tauto|].
  destruct (is_digit c); [|tauto].
  destruct (leading_digits_some r (10 * 0 + (code c - 48))) as [m ->].
  unfold round_to_double.
  destruct (2 ^ 1024 <=? _); split; discriminate.
Qed.

(** ** The claims on [verifyAndParse] *)

(** The error of a failed signature check is a plain [Error]: it is not
    an instance of the [AuthenticationError] class of the REST client. *)
Lemma invalid_signature_is_plain_error :
  class invalid_signature = Error
  /\ name invalid_signature = "Error"
  /\ statusCode invalid_signature = None
  /\ invalid_signature
     <> new_AuthenticationError (Some "Invalid webhook signature").
Proof. repeat split. discriminate. Qed.

(** C1. [verifyAndParse] returns a payload only if [verifySignature]
    returned [true] for the supplied signature, the normalized timestamp
    and the body.  Whenever [verifySignature] returns [false],
    [verifyAndParse] fails with the authentication failure, whose message is
    "Invalid webhook signature", and [JSON.parse] is not called: the world,
    with its record of parsed texts, is as before. *)
Theorem verifyAndParse_requires_valid_signature
        (parseJSON : string -> completion JSValue)
        (self : WebhookVerifier) (o : Options.t) (w : World) :
  (forall payload w',
      verifyAndParse parseJSON self o w = (Normal payload, w') ->
      verifySignature self (Options.signature o)
                      (normalized (Options.timestamp o)) (Options.body o) w
      = (Normal true, w))
  /\ (verifySignature self (Options.signature o)
                      (normalized (Options.timestamp o)) (Options.body o) w
      = (Normal false, w) ->
      verifyAndParse parseJSON self o w = (Throw invalid_signature, w)
      /\ failure_kind invalid_signature = Some AuthenticationFailure
      /\ message invalid_signature = "Invalid webhook signature"
      /\ parsed (snd (verifyAndParse parseJSON self o w)) = parsed w).
Proof.
  rewrite verifyAndParse_run, verifySignature_run.
  set (b := (_ && _)%bool).
  split.
  - intros payload w' H. destruct b; [reflexivity | discriminate H].
  - intro H. injection H as ->. repeat split.
Qed.

Lemma verifyAndParse_requires_valid_signature_witness :
  verifyAndParse JSONText.parse scenario_verifier
    (Options.make "sha256=00" (inl "1700000000") scenario_body None)
    scenario_world
  = (Throw invalid_signature, scenario_world).
Proof.
  apply (proj2 (verifyAndParse_requires_valid_signature JSONText.parse
                  scenario_verifier
                  (Options.make "sha256=00" (inl "1700000000") scenario_body None)
                  scenario_world)).
  vm_compute. reflexivity.
Defined.

(** A delivery whose timestamp passes the window test and whose supplied
    value is the digest the verifier computes goes on to the parsing and
    the validation of the body. *)
Lemma verifyAndParse_verified
      (parseJSON : string -> completion JSValue)
      (self : WebhookVerifier) (signature body : string) (t : string + number)
      (deliveryId : option string) (w : World) :
  within_window self w (normalized t) = true ->
  signature_value signature = expected_digest self (normalized t) body ->
  verifyAndParse parseJSON self (Options.make signature t body deliveryId) w
  = parse_and_validate parseJSON body deliveryId w.
Proof.
  intros Hwin Hsig. rewrite verifyAndParse_run.
  cbn [Options.signature Options.timestamp Options.body Options.deliveryId].
  rewrite verifySignature_run.
  fold (within_window self w (normalized t)).
  fold (expected_digest self (normalized t) body).
  rewrite Hwin, Hsig, String.eqb_refl. reflexivity.
Qed.

(** For a safe-integer timestamp within a window that is a double, the
    sender's signature is the digest the verifier computes. *)
Lemma sender_signature_verifies (S body : string) (maxAge T : Z) (w : World) :
  safe_integer T ->
  representable maxAge ->
  Z.abs (epoch_seconds w - T) <= maxAge ->
  within_window (mkWebhookVerifier S maxAge) w (Int T) = true
  /\ sign S T body = expected_digest (mkWebhookVerifier S maxAge) (Int T) body.
Proof.
  intros Hsafe Hrep Hwin. unfold within_window, expected_digest, sign.
  cbn [secret maxAgeSeconds].
  rewrite (window_test_within _ _ _ Hrep Hwin), (Number_toString_safe T Hsafe).
  split; reflexivity.
Qed.

(** C5. A body that is not well-formed JSON, with a timestamp that passes
    the window test and a signature that is correct for that exact text
    (the supplied value is the digest the verifier computes over the
    timestamp, a dot and the body), makes [verifyAndParse] fail with the
    parse failure, whose message embeds the diagnostic of [JSON.parse]; it
    is not the authentication failure. *)
Theorem verifyAndParse_reports_syntax_error
        (parseJSON : string -> completion JSValue)
        (self : WebhookVerifier) (signature body : string) (t : string + number)
        (deliveryId : option string) (diagnostic : JSError) (w : World) :
  parseJSON body = Throw diagnostic ->
  within_window self w (normalized t) = true ->
  signature_value signature = expected_digest self (normalized t) body ->
  let e := new_Error Error "Error"
                     ("Invalid JSON payload: " +++ message diagnostic) in
  verifyAndParse parseJSON self (Options.make signature t body deliveryId) w
  = (Throw e, after_parse w body)
  /\ failure_kind e = Some ParseFailure
  /\ e <> invalid_signature.
Proof.
  intros Hbad Hwin Hsig e. split; [|split].
  - rewrite (verifyAndParse_verified parseJSON self signature body t
               deliveryId w Hwin Hsig).
    apply parse_and_validate_syntax_error, Hbad.
  - unfold failure_kind, e.
    cbn [class message new_Error ErrorClass_eqb negb].
    change (String.eqb ("Invalid JSON payload: " +++ message diagnostic)
                       "Invalid webhook signature") with false.
    cbv iota.
    now rewrite (startsWith_append "Invalid JSON payload: " (message diagnostic)).
  - discriminate.
Qed.

Lemma verifyAndParse_reports_syntax_error_witness :
  verifyAndParse JSONText.parse (mkWebhookVerifier scenario_secret 300)
    (Options.make ("sha256=" +++ sign scenario_secret 1700000000 truncated_body)
                  (inl "1700000000") truncated_body None)
    scenario_world
  = (Throw (new_Error Error "Error"
              "Invalid JSON payload: Unexpected end of JSON input"),
     after_parse scenario_world truncated_body).
Proof.
  apply (verifyAndParse_reports_syntax_error JSONText.parse
           (mkWebhookVerifier scenario_secret 300)
           ("sha256=" +++ sign scenario_secret 1700000000 truncated_body)
           truncated_body (inl "1700000000") None
           (new_Error SyntaxError "SyntaxError" "Unexpected end of JSON input")
           scenario_world).
  - vm_compute. reflexivity.
  - vm_compute. reflexivity.
  - vm_compute. reflexivity.
Defined.

(** C9. A validly signed delivery in the window (the timestamp passes the
    window test and the supplied value is the digest the verifier
    computes) whose body is the text [null], which parses to [null], makes
    [verifyAndParse] raise a [TypeError]: the field validation reads a
    property of [null].  The error is none of the failure kinds of the
    pipeline. *)
Theorem verifyAndParse_null_body
        (parseJSON : string -> completion JSValue)
        (self : WebhookVerifier) (signature : string) (t : string + number)
        (deliveryId : option string) (w : World) :
  parseJSON "null" = Normal JSNull ->
  within_window self w (normalized t) = true ->
  signature_value signature = expected_digest self (normalized t) "null" ->
  exists e,
    verifyAndParse parseJSON self
                   (Options.make signature t "null" deliveryId) w
    = (Throw e, after_parse w "null")
    /\ class e = TypeError
    /\ message e = "Cannot read properties of null (reading 'event')"
    /\ failure_kind e = None.
Proof.
  intros Hnull Hwin Hsig.
  exists (new_Error TypeError "TypeError"
                    "Cannot read properties of null (reading 'event')").
  split; [|repeat split].
  rewrite (verifyAndParse_verified parseJSON self signature "null" t
             deliveryId w Hwin Hsig).
  apply parse_and_validate_null, Hnull.
Qed.

Lemma verifyAndParse_null_body_witness :
  exists e,
    verifyAndParse JSONText.parse (mkWebhookVerifier scenario_secret 300)
      (Options.make (sign scenario_secret 1700000000 "null")
                    (inr (Int 1700000000)) "null" (Some "d-1"))
      scenario_world
    = (Throw e, after_parse scenario_world "null")
    /\ class e = TypeError
    /\ message e = "Cannot read properties of null (reading 'event')"
    /\ failure_kind e = None.
Proof.
  apply (verifyAndParse_null_body JSONText.parse
           (mkWebhookVerifier scenario_secret 300)
           (sign scenario_secret 1700000000 "null")
           (inr (Int 1700000000)) (Some "d-1") scenario_world).
  - vm_compute. reflexivity.
  - vm_compute. reflexivity.
  - vm_compute. reflexivity.
Defined.

(** C10. A timestamp string that does not begin with a decimal integer is
    normalized to [NaN]; the window comparison [abs(now - NaN) >
    maxAgeSeconds] is then [false] whatever the clock and the window, so
    the signature check comes to the comparison of the supplied value with
    the digest of "NaN." followed by the body, and [verifyAndParse] ends
    with the authentication failure exactly when that comparison fails. *)
Theorem unparsable_timestamp_skips_window
        (parseJSON : string -> completion JSValue)
        (self : WebhookVerifier) (signature s body : string)
        (deliveryId : option string) (w : World) :
  begins_with_integer s = false ->
  normalized (inl s) = NaN
  /\ number_gt (Math_abs (number_sub (Int (epoch_seconds w)) (normalized (inl s))))
               (Int (maxAgeSeconds self)) = false
  /\ verifySignature self signature (normalized (inl s)) body w
     = (Normal (String.eqb (createHmac_sha256_hex (secret self) ("NaN." +++ body))
                           (signature_value signature)), w)
  /\ (thrown (verifyAndParse parseJSON self
                (Options.make signature (inl s) body deliveryId) w)
      = Some invalid_signature
      <-> signature_value signature
          <> createHmac_sha256_hex (secret self) ("NaN." +++ body)).
Proof.
  intro Hs. apply parseInt10_NaN_iff in Hs.
  assert (Hrun : verifySignature self signature (normalized (inl s)) body w
                 = (Normal (String.eqb
                              (createHmac_sha256_hex (secret self) ("NaN." +++ body))
                              (signature_value signature)), w)).
  { rewrite verifySignature_run. cbn [normalized]. rewrite Hs. reflexivity. }
  repeat split.
  - exact Hs.
  - cbn [normalized]. rewrite Hs. reflexivity.
  - exact Hrun.
  - rewrite verifyAndParse_run. cbn [Options.signature Options.timestamp
                                     Options.body Options.deliveryId].
    rewrite Hrun. intros H E.
    rewrite E, String.eqb_refl in H.
    now apply parse_and_validate_not_invalid_signature in H.
  - rewrite verifyAndParse_run. cbn [Options.signature Options.timestamp
                                     Options.body Options.deliveryId].
    rewrite Hrun. intro Hne.
    destruct (String.eqb_spec
                (createHmac_sha256_hex (secret self) ("NaN." +++ body))
                (signature_value signature)) as [E|E]; [|reflexivity].
    symmetry in E. contradiction.
Qed.

(** A delivery with the timestamp "soon": a window of zero seconds and an
    arbitrary clock leave the comparison with the digest of "NaN." and the
    body to decide. *)
Lemma unparsable_timestamp_skips_window_witness :
  verifySignature (mkWebhookVerifier scenario_secret 0)
    (createHmac_sha256_hex scenario_secret ("NaN." +++ scenario_body))
    (normalized (inl "soon")) scenario_body (mkWorld 0 [])
  = (Normal (String.eqb
               (createHmac_sha256_hex scenario_secret ("NaN." +++ scenario_body))
               (signature_value
                  (createHmac_sha256_hex scenario_secret
                     ("NaN." +++ scenario_body)))), mkWorld 0 []).
Proof.
  exact (proj1 (proj2 (proj2
           (unparsable_timestamp_skips_window JSONText.parse
              (mkWebhookVerifier scenario_secret 0)
              (createHmac_sha256_hex scenario_secret ("NaN." +++ scenario_body))
              "soon" scenario_body None (mkWorld 0 []) eq_refl)))).
Defined.

Example unparsable_timestamp_accepted :
  verifyAndParse JSONText.parse (mkWebhookVerifier scenario_secret 0)
    (Options.make
       (createHmac_sha256_hex scenario_secret ("NaN." +++ scenario_body))
       (inl "soon") scenario_body None) (mkWorld 0 [])
  = (Normal (mkWebhookPayload
               (JSString "contact.created")
               (JSString "2023-11-14T22:13:20Z")
               (JSObject [("contactId", JSString "c1")])
               EmptyString),
     after_parse (mkWorld 0 []) scenario_body).
Proof. vm_compute. reflexivity. Qed.

(** ** The end-to-end scenario *)

Example scenario_signature :
  sign scenario_secret 1700000000 scenario_body
  = "3f76c6c89bd02bb40ffdcf1da428a07484363d00caf42e593836e0443bd7ba42".
Proof. vm_compute. reflexivity. Qed.

Example scenario_accepted :
  verifyAndParse JSONText.parse scenario_verifier
    (Options.make ("sha256=" +++ sign scenario_secret 1700000000 scenario_body)
                  (inl "1700000000") scenario_body None)
    scenario_world
  = (Normal (mkWebhookPayload
               (JSString "contact.created")
               (JSString "2023-11-14T22:13:20Z")
               (JSObject [("contactId", JSString "c1")])
               EmptyString),
     after_parse scenario_world scenario_body).
Proof. vm_compute. reflexivity. Qed.

Example scenario_301_seconds_ahead :
  verifyAndParse JSONText.parse scenario_verifier
    (Options.make ("sha256=" +++ sign scenario_secret 1700000301 scenario_body)
                  (inl "1700000301") scenario_body None)
    scenario_world
  = (Throw invalid_signature, scenario_world).
Proof. vm_compute. reflexivity. Qed.

(** C6, at the body [null]: a validly signed body whose parsed value has
    none of the three fields, and [verifyAndParse] ends with a [TypeError]
    that names no missing field. *)
Theorem verifyAndParse_null_is_not_missing_field :
  let r := verifyAndParse JSONText.parse scenario_verifier
             (Options.make ("sha256=" +++ sign scenario_secret 1700000000 "null")
                           (inl "1700000000") "null" None)
             scenario_world in
  JSONText.parse "null" = Normal JSNull
  /\ thrown r = Some (new_Error TypeError "TypeError"
                        "Cannot read properties of null (reading 'event')")
  /\ option_map failure_kind (thrown r) = Some None.
Proof. vm_compute. repeat split. Qed.

(** On every parsed value other than [null] the field validation does
    name the first field, in the order [event], [timestamp], [data],
    whose value is missing or falsy; the delivery is validly signed and in
    the window. *)
Lemma verifyAndParse_names_missing_field
      (parseJSON : string -> completion JSValue)
      (self : WebhookVerifier) (signature body : string) (t : string + number)
      (deliveryId : option string) (v : JSValue) (w : World) :
  parseJSON body = Normal v ->
  v <> JSNull -> v <> JSUndefined ->
  within_window self w (normalized t) = true ->
  signature_value signature = expected_digest self (normalized t) body ->
  let r := verifyAndParse parseJSON self
             (Options.make signature t body deliveryId) w in
  (ToBoolean (optional_get v "event") = false ->
   option_map failure_kind (thrown r) = Some (Some (MissingField "event")))
  /\ (ToBoolean (optional_get v "event") = true ->
      ToBoolean (optional_get v "timestamp") = false ->
      option_map failure_kind (thrown r) = Some (Some (MissingField "timestamp")))
  /\ (ToBoolean (optional_get v "event") = true ->
      ToBoolean (optional_get v "timestamp") = true ->
      ToBoolean (optional_get v "data") = false ->
      option_map failure_kind (thrown r) = Some (Some (MissingField "data"))).
Proof.
  intros Hv Hnull Hundef Hwin Hsig r.
  assert (Hr : r = parse_and_validate parseJSON body deliveryId w)
    by (apply verifyAndParse_verified; assumption).
  rewrite Hr, (parse_and_validate_fields parseJSON body deliveryId v w Hv Hnull Hundef).
  repeat split.
  - intros ->. reflexivity.
  - intros -> ->. reflexivity.
  - intros -> -> ->. reflexivity.
Qed.

Lemma verifyAndParse_names_missing_field_witness :
  option_map failure_kind
    (thrown (verifyAndParse JSONText.parse (mkWebhookVerifier scenario_secret 300)
               (Options.make
                  (sign scenario_secret 1700000000
                        (single_quoted "{'event':'test','data':{}}"))
                  (inr (Int 1700000000))
                  (single_quoted "{'event':'test','data':{}}") None)
               scenario_world))
  = Some (Some (MissingField "timestamp")).
Proof.
  apply (proj1 (proj2
           (verifyAndParse_names_missing_field JSONText.parse
              (mkWebhookVerifier scenario_secret 300)
              (sign scenario_secret 1700000000
                    (single_quoted "{'event':'test','data':{}}"))
              (single_quoted "{'event':'test','data':{}}")
              (inr (Int 1700000000)) None
              (JSObject [("event", JSString "test"); ("data", JSObject [])])
              scenario_world eq_refl
              ltac:(discriminate) ltac:(discriminate)
              ltac:(vm_compute; reflexivity)
              ltac:(vm_compute; reflexivity))));
    reflexivity.
Defined.

(** Any compared value other than the digest is refused. *)
Lemma verifySignature_rejects_other_values (self : WebhookVerifier)
      (signature : string) (timestamp : number) (body : string) (w : World) :
  signature_value signature
  <> createHmac_sha256_hex (secret self)
       (Number_toString timestamp +++ "." +++ body) ->
  verifySignature self signature timestamp body w = (Normal false, w).
Proof.
  intro Hne. rewrite verifySignature_run.
  destruct (String.eqb_spec
              (createHmac_sha256_hex (secret self)
                 (Number_toString timestamp +++ "." +++ body))
              (signature_value signature)) as [E|E].
  - symmetry in E. contradiction.
  - now rewrite andb_false_r.
Qed.

Lemma verifySignature_rejects_other_values_witness :
  verifySignature scenario_verifier "sha256=00" (Int 1700000000)
                  scenario_body scenario_world
  = (Normal false, scenario_world).
Proof.
  apply (verifySignature_rejects_other_values scenario_verifier "sha256=00"
           (Int 1700000000) scenario_body scenario_world).
  vm_compute. discriminate.
Defined.

(** The [sha256=] prefix is optional: with it or without it the result is
    the same. *)
Lemma verifySignature_prefix_optional (self : WebhookVerifier)
      (value : string) (timestamp : number) (body : string) (w : World) :
  startsWith value "sha256=" = false ->
  verifySignature self ("sha256=" +++ value) timestamp body w
  = verifySignature self value timestamp body w.
Proof.
  intro H. rewrite !verifySignature_run, signature_value_prefixed.
  unfold signature_value at 1. now rewrite H.
Qed.

Lemma verifySignature_prefix_optional_witness :
  verifySignature scenario_verifier
    ("sha256=" +++ sign scenario_secret 1700000000 scenario_body)
    (Int 1700000000) scenario_body scenario_world
  = verifySignature scenario_verifier
      (sign scenario_secret 1700000000 scenario_body)
      (Int 1700000000) scenario_body scenario_world.
Proof.
  apply (verifySignature_prefix_optional scenario_verifier
           (sign scenario_secret 1700000000 scenario_body)
           (Int 1700000000) scenario_body scenario_world).
  apply createHmac_sha256_hex_unprefixed.
Defined.

(** ** [extractHeaders] *)

Lemma scan_entries_recased (l1 l2 : list (string * string)) (lowerKey : string) :
  same_but_casing l1 l2 -> scan_entries l1 lowerKey = scan_entries l2 lowerKey.
Proof.
  induction 1 as [|[k1 v1] [k2 v2] l1 l2 [Hk Hv] _ IH]; [reflexivity|].
  cbn [fst snd] in Hk, Hv. cbn [scan_entries]. rewrite Hk, Hv, IH. reflexivity.
Qed.

Lemma Headers_get_values (h : Headers) (name : string) :
  Headers_get h name
  = match map snd (filter (fun nv => String.eqb (toLowerCase (fst nv))
                                                 (toLowerCase name)) h) with
    | [] => None
    | values => Some (String.concat ", " values)
    end.
Proof. unfold Headers_get. destruct (filter _ h); reflexivity. Qed.

Lemma Headers_get_recased (h1 h2 : Headers) (name : string) :
  same_but_casing h1 h2 -> Headers_get h1 name = Headers_get h2 name.
Proof.
  intro H. rewrite !Headers_get_values.
  set (f := fun nv : string * string =>
              String.eqb (toLowerCase (fst nv)) (toLowerCase name)).
  assert (E : map snd (filter f h1) = map snd (filter f h2)).
  { induction H as [|[k1 v1] [k2 v2] l1 l2 [Hk Hv] _ IH]; [reflexivity|].
    cbn [fst snd] in Hk, Hv. cbn [filter].
    change (f (k1, v1)) with (String.eqb (toLowerCase k1) (toLowerCase name)).
    change (f (k2, v2)) with (String.eqb (toLowerCase k2) (toLowerCase name)).
    rewrite Hk.
    destruct (String.eqb _ _); cbn [map snd]; rewrite ?Hv, IH; reflexivity. }
  now rewrite E.
Qed.

Lemma extractHeaders_get_recased (c1 c2 : HeaderCarrier) (key : string) :
  recased c1 c2 -> extractHeaders_get c1 key = extractHeaders_get c2 key.
Proof.
  intros [h1 h2 H|o1 o2 H]; cbn [extractHeaders_get];
    [apply Headers_get_recased | apply scan_entries_recased]; exact H.
Qed.

Lemma extractHeaders_get_absent (c : HeaderCarrier) (key : string) :
  absent c (toLowerCase key) -> extractHeaders_get c key = None.
Proof.
  unfold absent. destruct c as [h|entries]; cbn [carrier_entries extractHeaders_get].
  - rewrite Headers_get_values.
    induction h as [|[k v] h IH]; [reflexivity|].
    cbn [map fst In filter]. intro Hnot.
    destruct (String.eqb_spec (toLowerCase k) (toLowerCase key)) as [E|E].
    + exfalso. apply Hnot. left. exact E.
    + apply IH. intro Hin. apply Hnot. right. exact Hin.
  - induction entries as [|[k v] entries IH]; [reflexivity|].
    cbn [map fst In scan_entries]. intro Hnot.
    destruct (String.eqb_spec (toLowerCase k) (toLowerCase key)) as [E|E].
    + exfalso. apply Hnot. left. exact E.
    + apply IH. intro Hin. apply Hnot. right. exact Hin.
Qed.

(** The lookup in terms of the values the carrier holds under the name:
    a [Headers] object joins them, the scan of a plain object returns the
    first. *)
Lemma extractHeaders_get_values_of (c : HeaderCarrier) (key : string) :
  extractHeaders_get c key
  = match c with
    | FetchHeaders _ =>
        match values_of c (toLowerCase key) with
        | [] => None
        | values => Some (String.concat ", " values)
        end
    | PlainObject _ => hd_error (values_of c (toLowerCase key))
    end.
Proof.
  destruct c as [h|entries]; unfold values_of;
    cbn [extractHeaders_get carrier_entries].
  - apply Headers_get_values.
  - induction entries as [|[k v] entries IH]; [reflexivity|].
    cbn [scan_entries filter fst].
    destruct (String.eqb (toLowerCase k) (toLowerCase key)); [reflexivity|].
    exact IH.
Qed.

(** A header supplied once is found, with its value, in both shapes. *)
Lemma extractHeaders_get_supplied (c : HeaderCarrier) (key value : string) :
  values_of c (toLowerCase key) = [value] ->
  extractHeaders_get c key = Some value.
Proof.
  intro H. rewrite extractHeaders_get_values_of, H. destruct c; reflexivity.
Qed.

(** C7. For both carrier shapes [extractHeaders] returns the same result
    whatever the casing of the header names.  When the carrier holds no
    [x-webhook-signature] it fails with the error naming that header, and
    so it does for [x-webhook-timestamp] when the carrier holds a
    signature.  When the carrier holds both, it returns them, with the
    empty string for an absent [x-webhook-event] or
    [x-webhook-delivery-id], and their value otherwise.  Presence is that
    of an entry of the carrier. *)
Theorem extractHeaders_contract :
  (forall c1 c2, recased c1 c2 -> extractHeaders c1 = extractHeaders c2)
  /\ (forall c,
         absent c "x-webhook-signature" ->
         extractHeaders c
         = Throw (new_Error Error "Error" "Missing X-Webhook-Signature header"))
  /\ (forall c s,
         values_of c "x-webhook-signature" = [s] ->
         s <> EmptyString ->
         absent c "x-webhook-timestamp" ->
         extractHeaders c
         = Throw (new_Error Error "Error" "Missing X-Webhook-Timestamp header"))
  /\ (forall c s t,
         values_of c "x-webhook-signature" = [s] ->
         s <> EmptyString ->
         values_of c "x-webhook-timestamp" = [t] ->
         t <> EmptyString ->
         exists r,
           extractHeaders c = Normal r
           /\ WebhookHeaders.signature r = s
           /\ WebhookHeaders.timestamp r = t
           /\ (absent c "x-webhook-event" -> WebhookHeaders.event r = EmptyString)
           /\ (forall e, values_of c "x-webhook-event" = [e] ->
                         WebhookHeaders.event r = e)
           /\ (absent c "x-webhook-delivery-id" ->
               WebhookHeaders.deliveryId r = EmptyString)
           /\ (forall d, values_of c "x-webhook-delivery-id" = [d] ->
                         WebhookHeaders.deliveryId r = d)).
Proof.
  split; [|split; [|split]].
  - intros c1 c2 H. unfold extractHeaders.
    now rewrite !(extractHeaders_get_recased c1 c2 _ H).
  - intros c H. unfold extractHeaders.
    now rewrite (extractHeaders_get_absent c "x-webhook-signature" H).
  - intros c s Hs Hne H. unfold extractHeaders.
    rewrite (extractHeaders_get_supplied c "x-webhook-signature" s Hs),
      (extractHeaders_get_absent c "x-webhook-timestamp" H).
    destruct s; [contradiction | reflexivity].
  - intros c s t Hs Hsne Ht Htne. unfold extractHeaders.
    rewrite (extractHeaders_get_supplied c "x-webhook-signature" s Hs),
      (extractHeaders_get_supplied c "x-webhook-timestamp" t Ht).
    destruct s; [contradiction|]. destruct t; [contradiction|].
    eexists. split; [reflexivity|].
    cbn [WebhookHeaders.signature WebhookHeaders.timestamp
         WebhookHeaders.event WebhookHeaders.deliveryId].
    split; [reflexivity|]. split; [reflexivity|].
    split; [|split; [|split]].
    + intro H. now rewrite (extractHeaders_get_absent c "x-webhook-event" H).
    + intros e H.
      now rewrite (extractHeaders_get_supplied c "x-webhook-event" e H).
    + intro H. now rewrite (extractHeaders_get_absent c "x-webhook-delivery-id" H).
    + intros d H.
      now rewrite (extractHeaders_get_supplied c "x-webhook-delivery-id" d H).
Qed.

(** The four parts at work: two casings of a plain object; a [Headers]
    object without signature; a plain object without timestamp; and a
    [Headers] object that holds signature, timestamp and event, but no
    delivery id. *)
Lemma extractHeaders_contract_witness :
  extractHeaders (PlainObject [("X-Webhook-Signature", "sha256=ab");
                               ("X-Webhook-Timestamp", "1700000000")])
  = extractHeaders (PlainObject [("x-webhook-signature", "sha256=ab");
                                 ("x-WEBHOOK-timestamp", "1700000000")])
  /\ extractHeaders (FetchHeaders [("content-type", "application/json");
                                   ("x-webhook-timestamp", "1700000000")])
     = Throw (new_Error Error "Error" "Missing X-Webhook-Signature header")
  /\ extractHeaders (PlainObject [("X-Webhook-Signature", "sha256=ab");
                                  ("Host", "example.com")])
     = Throw (new_Error Error "Error" "Missing X-Webhook-Timestamp header")
  /\ exists r,
      extractHeaders (FetchHeaders [("x-webhook-signature", "sha256=ab");
                                    ("x-webhook-event", "contact.created");
                                    ("x-webhook-timestamp", "1700000000")])
      = Normal r
      /\ WebhookHeaders.signature r = "sha256=ab"
      /\ WebhookHeaders.timestamp r = "1700000000"
      /\ WebhookHeaders.event r = "contact.created"
      /\ WebhookHeaders.deliveryId r = EmptyString.
Proof.
  split; [|split; [|split]].
  - apply (proj1 extractHeaders_contract).
    constructor. repeat constructor.
  - apply (proj1 (proj2 extractHeaders_contract)).
    unfold absent. cbn. intros [H|[H|[]]]; discriminate H.
  - apply (proj1 (proj2 (proj2 extractHeaders_contract))
             (PlainObject [("X-Webhook-Signature", "sha256=ab");
                           ("Host", "example.com")]) "sha256=ab").
    + reflexivity.
    + discriminate.
    + unfold absent. cbn. intros [H|[H|[]]]; discriminate H.
  - destruct (proj2 (proj2 (proj2 extractHeaders_contract))
                (FetchHeaders [("x-webhook-signature", "sha256=ab");
                               ("x-webhook-event", "contact.created");
                               ("x-webhook-timestamp", "1700000000")])
                "sha256=ab" "1700000000"
                eq_refl ltac:(discriminate) eq_refl ltac:(discriminate))
      as (r & Hr & Hs & Ht & _ & He & Hd & _).
    exists r. split; [exact Hr|]. split; [exact Hs|]. split; [exact Ht|].
    split.
    + apply He. reflexivity.
    + apply Hd. unfold absent. cbn. intros [H|[H|[H|[]]]]; discriminate H.
Defined.

(** In a plain object the Kelvin sign lower-cases to the letter k, so a
    name written with it matches. *)
Example extractHeaders_kelvin_sign :
  let kelvin := String "226" (String "132" (String "170" EmptyString)) in
  toLowerCase ("X-WebHoo" +++ kelvin +++ "-Signature") = "x-webhook-signature"
  /\ extractHeaders
       (PlainObject [("X-WebHoo" +++ kelvin +++ "-Signature", "sha256=ab");
                     ("X-Webhook-Timestamp", "1700000000")])
     = Normal (WebhookHeaders.make "sha256=ab" "1700000000"
                                   EmptyString EmptyString).
Proof. split; reflexivity. Qed.

Example extractHeaders_all_four :
  extractHeaders (FetchHeaders [("X-WEBHOOK-SIGNATURE", "sha256=ab");
                                ("x-webhook-timestamp", "1700000000");
                                ("X-Webhook-Event", "test");
                                ("X-Webhook-Delivery-Id", "d-1")])
  = Normal (WebhookHeaders.make "sha256=ab" "1700000000" "test" "d-1").
Proof. reflexivity. Qed.

(** ** [handleResponse] *)

Ltac decide_status :=
  repeat match goal with
    | |- context [?a =? ?b] =>
        first [ replace (a =? b) with true by (symmetry; apply Z.eqb_eq; lia)
              | replace (a =? b) with false by (symmetry; apply Z.eqb_neq; lia) ]
    | |- context [?a <=? ?b] =>
        first [ replace (a <=? b) with true by (symmetry; apply Z.leb_le; lia)
              | replace (a <=? b) with false by (symmetry; apply Z.leb_gt; lia) ]
    end.

(** C8, at the status 403 with the body [{"error":{"toString":1}}]: the
    handler does not throw a [ForbiddenError].  The [error] value of the
    body is an object with a [toString] property of its own, the
    constructor of [Error] cannot convert it to a message, and the handler
    ends with a [TypeError] that is no [EZUnsubError] and carries no
    status.  The statuses 404, 400 and 500 do the same. *)
Theorem handleResponse_unconvertible_error_value :
  let body := single_quoted "{'error':{'toString':1}}" in
  let outcome := fun status =>
    thrown (handleResponse JSONText.parse (mkResponse status [] body)
                           scenario_world) in
  JSONText.parse body
  = Normal (JSObject [("error", JSObject [("toString", JSNumber (Int 1))])])
  /\ outcome 403 = Some conversion_error
  /\ outcome 404 = Some conversion_error
  /\ outcome 400 = Some conversion_error
  /\ outcome 500 = Some conversion_error
  /\ class conversion_error = TypeError
  /\ statusCode conversion_error = None
  /\ instanceOf conversion_error ForbiddenError = false
  /\ instanceOf conversion_error EZUnsubError = false.
Proof. vm_compute. repeat split. Qed.

Example handleResponse_server_error :
  thrown (handleResponse JSONText.parse
            (mkResponse 503 [] (single_quoted "{'error':'maintenance'}"))
            scenario_world)
  = Some (new_EZUnsubError "maintenance" (Some 503)).
Proof. reflexivity. Qed.

Example handleResponse_no_content :
  handleResponse JSONText.parse (mkResponse 204 [] "ignored") scenario_world
  = (Normal (JSObject []), scenario_world).
Proof. reflexivity. Qed.

(** An [error] value that is an object without a [toString] of its own
    becomes the message "[object Object]". *)
Example handleResponse_object_error :
  thrown (handleResponse JSONText.parse
            (mkResponse 403 [] (single_quoted "{'error':{'code':7}}"))
            scenario_world)
  = Some (new_ForbiddenError (Some "[object Object]")).
Proof. reflexivity. Qed.

(** * Further properties of the code *)

(** ** [extractHeaders] *)

(** With two names that agree up to case the shapes differ: the scan of
    a plain object stops at the first entry, [Headers.get] joins the
    values. *)
Example extractHeaders_shapes_differ :
  extractHeaders_get (PlainObject [("X-Webhook-Signature", "a");
                                   ("x-webhook-signature", "b")])
                     "x-webhook-signature" = Some "a"
  /\ extractHeaders_get (FetchHeaders [("X-Webhook-Signature", "a");
                                       ("x-webhook-signature", "b")])
                        "x-webhook-signature" = Some "a, b".
Proof. split; reflexivity. Qed.

(** [extractHeaders] has three outcomes: the four values, with a
    signature and a timestamp that are the looked-up values and are not
    empty, or one of the two errors.  A header present with an empty value
    counts as missing. *)
Theorem extractHeaders_outcomes (c : HeaderCarrier) :
  (exists r,
      extractHeaders c = Normal r
      /\ extractHeaders_get c "x-webhook-signature"
         = Some (WebhookHeaders.signature r)
      /\ extractHeaders_get c "x-webhook-timestamp"
         = Some (WebhookHeaders.timestamp r)
      /\ WebhookHeaders.signature r <> EmptyString
      /\ WebhookHeaders.timestamp r <> EmptyString)
  \/ ((extractHeaders_get c "x-webhook-signature" = None
       \/ extractHeaders_get c "x-webhook-signature" = Some EmptyString)
      /\ extractHeaders c
         = Throw (new_Error Error "Error" "Missing X-Webhook-Signature header"))
  \/ ((extractHeaders_get c "x-webhook-timestamp" = None
       \/ extractHeaders_get c "x-webhook-timestamp" = Some EmptyString)
      /\ extractHeaders c
         = Throw (new_Error Error "Error" "Missing X-Webhook-Timestamp header")).
Proof.
  unfold extractHeaders.
  destruct (extractHeaders_get c "x-webhook-signature") as [[|a s]|].
  - right. left. auto.
  - destruct (extractHeaders_get c "x-webhook-timestamp") as [[|b t]|].
    + right. right. auto.
    + left. eexists. split; [reflexivity|]. cbn. repeat split; discriminate.
    + right. right. auto.
  - right. left. auto.
Qed.

(** The scan of a plain object returns the value of the first entry
    whose name matches case-insensitively, whatever follows it. *)
Theorem extractHeaders_plain_first_match
        (before after : list (string * string)) (k v key : string) :
  (forall e, In e before -> toLowerCase (fst e) <> toLowerCase key) ->
  toLowerCase k = toLowerCase key ->
  extractHeaders_get (PlainObject (before ++ (k, v) :: after)) key = Some v.
Proof.
  intros Hbefore Hk. cbn [extractHeaders_get].
  induction before as [|[k0 v0] before IH]; cbn [app scan_entries].
  - rewrite Hk, String.eqb_refl. reflexivity.
  - destruct (String.eqb_spec (toLowerCase k0) (toLowerCase key)) as [E|E].
    + exfalso. apply (Hbefore (k0, v0)); [left; reflexivity | exact E].
    + apply IH. intros e He. apply Hbefore. right. exact He.
Qed.

Lemma extractHeaders_plain_first_match_witness :
  extractHeaders_get
    (PlainObject ([("host", "example.com")]
                  ++ ("X-Webhook-Signature", "first")
                  :: [("x-webhook-signature", "second")]))
    "x-webhook-signature"
  = Some "first".
Proof.
  apply (extractHeaders_plain_first_match
           [("host", "example.com")] [("x-webhook-signature", "second")]
           "X-Webhook-Signature" "first" "x-webhook-signature").
  - intros e [<-|[]]. discriminate.
  - reflexivity.
Defined.

(** ** The outcomes of [verifyAndParse] *)

(** [verifyAndParse] returns a payload exactly when the signature
    verifies and the body parses to a value, other than [null], whose
    [event], [timestamp] and [data] are truthy; the payload holds these
    three values and the supplied delivery id, or the empty string. *)
Theorem verifyAndParse_returns
        (parseJSON : string -> completion JSValue)
        (self : WebhookVerifier) (o : Options.t)
        (p : WebhookPayload) (w w' : World) :
  verifyAndParse parseJSON self o w = (Normal p, w')
  <-> verifySignature self (Options.signature o)
                      (normalized (Options.timestamp o)) (Options.body o) w
      = (Normal true, w)
      /\ w' = after_parse w (Options.body o)
      /\ exists v,
          parseJSON (Options.body o) = Normal v
          /\ v <> JSNull /\ v <> JSUndefined
          /\ ToBoolean (optional_get v "event") = true
          /\ ToBoolean (optional_get v "timestamp") = true
          /\ ToBoolean (optional_get v "data") = true
          /\ p = mkWebhookPayload (optional_get v "event")
                   (optional_get v "timestamp") (optional_get v "data")
                   (or_default (Options.deliveryId o) EmptyString).
Proof.
  rewrite verifyAndParse_run, verifySignature_run.
  set (b := (_ && _)%bool). split.
  - destruct b; [|discriminate]. intro H. split; [reflexivity|].
    destruct (parseJSON (Options.body o)) as [v|d] eqn:Hv.
    + assert (Hnull : v <> JSNull).
      { intros ->. rewrite (parse_and_validate_null parseJSON _ _ w Hv) in H.
        discriminate H. }
      assert (Hundef : v <> JSUndefined).
      { intros ->. unfold parse_and_validate, bind, try_catch, JSON_parse in H.
        rewrite Hv in H. discriminate H. }
      rewrite (parse_and_validate_fields parseJSON _ _ v w Hv Hnull Hundef) in H.
      destruct (ToBoolean (optional_get v "event")) eqn:He; [|discriminate H].
      destruct (ToBoolean (optional_get v "timestamp")) eqn:Ht; [|discriminate H].
      destruct (ToBoolean (optional_get v "data")) eqn:Hd; [|discriminate H].
      cbn [negb] in H. injection H as <- <-.
      split; [reflexivity|]. exists v. repeat split; auto.
    + rewrite (parse_and_validate_syntax_error parseJSON _ _ d w Hv) in H.
      discriminate H.
  - intros (Hb & -> & v & Hv & Hnull & Hundef & He & Ht & Hd & ->).
    injection Hb as ->.
    rewrite (parse_and_validate_fields parseJSON _ _ v w Hv Hnull Hundef).
    rewrite He, Ht, Hd. reflexivity.
Qed.

(** [JSON.parse] is called once, on the body, when the signature
    verifies, and not at all otherwise; the clock is not touched. *)
Theorem verifyAndParse_parses_once
        (parseJSON : string -> completion JSValue)
        (self : WebhookVerifier) (o : Options.t) (w : World) :
  snd (verifyAndParse parseJSON self o w)
  = match fst (verifySignature self (Options.signature o)
                               (normalized (Options.timestamp o))
                               (Options.body o) w) with
    | Normal true => after_parse w (Options.body o)
    | _ => w
    end.
Proof.
  rewrite verifyAndParse_run, verifySignature_run. cbn [fst].
  destruct (_ && _)%bool; [|reflexivity].
  apply parse_and_validate_parses.
Qed.

(** Every error of [verifyAndParse] is the authentication failure, the
    wrapped parser diagnostic, one of the three missing-field errors, or
    the [TypeError] of a body that parses to [null]; an error of
    [JSON.parse] never escapes as it is. *)
Theorem verifyAndParse_failures
        (parseJSON : string -> completion JSValue)
        (self : WebhookVerifier) (o : Options.t) (w : World) (e : JSError) :
  thrown (verifyAndParse parseJSON self o w) = Some e ->
  e = invalid_signature
  \/ (exists d, parseJSON (Options.body o) = Throw d
                /\ e = new_Error Error "Error"
                                 ("Invalid JSON payload: " +++ message d))
  \/ (exists field, In field ["event"; "timestamp"; "data"]
                    /\ e = new_Error Error "Error"
                                     ("Missing '" +++ field +++ "' field in payload"))
  \/ (class e = TypeError
      /\ (parseJSON (Options.body o) = Normal JSNull
          \/ parseJSON (Options.body o) = Normal JSUndefined)).
Proof.
  rewrite verifyAndParse_run, verifySignature_run.
  destruct (_ && _)%bool.
  2:{ intro H. injection H as <-. left. reflexivity. }
  destruct (parseJSON (Options.body o)) as [v|d] eqn:Hv.
  - assert (Hcases : v = JSNull \/ v = JSUndefined
                     \/ (v <> JSNull /\ v <> JSUndefined)).
    { destruct v; auto; right; right; split; discriminate. }
    destruct Hcases as [->|[->|[Hnull Hundef]]].
    + rewrite (parse_and_validate_null parseJSON _ _ w Hv).
      intro H. injection H as <-. right. right. right. auto.
    + unfold parse_and_validate, bind, try_catch, JSON_parse. rewrite Hv.
      intro H. injection H as <-. right. right. right. auto.
    + rewrite (parse_and_validate_fields parseJSON _ _ v w Hv Hnull Hundef).
      unfold thrown. cbn [fst].
      destruct (ToBoolean (optional_get v "event")); cbn [negb].
      2:{ intro H. injection H as <-. right. right. left.
          exists "event". split; [cbn; auto | reflexivity]. }
      destruct (ToBoolean (optional_get v "timestamp")); cbn [negb].
      2:{ intro H. injection H as <-. right. right. left.
          exists "timestamp". split; [cbn; auto | reflexivity]. }
      destruct (ToBoolean (optional_get v "data")); cbn [negb].
      2:{ intro H. injection H as <-. right. right. left.
          exists "data". split; [cbn; auto | reflexivity]. }
      discriminate.
  - rewrite (parse_and_validate_syntax_error parseJSON _ _ d w Hv).
    intro H. injection H as <-. right. left. exists d. auto.
Qed.

Lemma verifyAndParse_failures_witness :
  new_Error Error "Error" "Invalid JSON payload: Unexpected end of JSON input"
  = invalid_signature
  \/ (exists d, JSONText.parse truncated_body = Throw d
                /\ new_Error Error "Error"
                     "Invalid JSON payload: Unexpected end of JSON input"
                   = new_Error Error "Error"
                               ("Invalid JSON payload: " +++ message d))
  \/ (exists field, In field ["event"; "timestamp"; "data"]
                    /\ new_Error Error "Error"
                         "Invalid JSON payload: Unexpected end of JSON input"
                       = new_Error Error "Error"
                                   ("Missing '" +++ field +++ "' field in payload"))
  \/ (class (new_Error Error "Error"
               "Invalid JSON payload: Unexpected end of JSON input") = TypeError
      /\ (JSONText.parse truncated_body = Normal JSNull
          \/ JSONText.parse truncated_body = Normal JSUndefined)).
Proof.
  apply (verifyAndParse_failures JSONText.parse
           (mkWebhookVerifier scenario_secret 300)
           (Options.make (sign scenario_secret 1700000000 truncated_body)
                         (inr (Int 1700000000)) truncated_body None)
           scenario_world).
  vm_compute. reflexivity.
Defined.

(** ** The replay window *)

(** Outside a window below [2^53] seconds every signature is refused,
    the sender's own included; a negative [maxAgeSeconds] refuses every
    integer timestamp. *)
Theorem verifySignature_rejects_outside_window
        (self : WebhookVerifier) (signature body : string) (T : Z) (w : World) :
  maxAgeSeconds self < 2 ^ 53 ->
  maxAgeSeconds self < Z.abs (epoch_seconds w - T) ->
  verifySignature self signature (Int T) body w = (Normal false, w).
Proof.
  intros Hsmall H.
  rewrite verifySignature_run, (window_test_beyond _ _ _ Hsmall H).
  reflexivity.
Qed.

Lemma verifySignature_rejects_outside_window_witness :
  verifySignature (mkWebhookVerifier scenario_secret (-1))
    (sign scenario_secret 1700000000 scenario_body) (Int 1700000000)
    scenario_body scenario_world
  = (Normal false, scenario_world).
Proof.
  apply (verifySignature_rejects_outside_window
           (mkWebhookVerifier scenario_secret (-1))
           (sign scenario_secret 1700000000 scenario_body) scenario_body
           1700000000 scenario_world).
  - vm_compute. reflexivity.
  - vm_compute. reflexivity.
Defined.

(** ** Timestamps given as strings *)

Lemma leading_digits_stop (junk : string) (acc : option Z) :
  no_leading_digit junk = true -> leading_digits junk acc = acc.
Proof.
  destruct junk as [|c r]; [reflexivity|]. cbn [no_leading_digit leading_digits].
  destruct (is_digit c); [discriminate | reflexivity].
Qed.

Lemma leading_digits_of_uint_acc (d : Decimal.uint) (acc : positive) (junk : string) :
  no_leading_digit junk = true ->
  leading_digits (NilEmpty.string_of_uint d +++ junk) (Some (Z.pos acc))
  = Some (Z.pos (Pos.of_uint_acc d acc)).
Proof.
  intro Hjunk. revert acc.
  induction d as [|d IH|d IH|d IH|d IH|d IH|d IH|d IH|d IH|d IH|d IH];
    intro acc; cbn [NilEmpty.string_of_uint String.append Pos.of_uint_acc];
    [apply leading_digits_stop; exact Hjunk|..];
    cbn [leading_digits]; change (is_digit _) with true; cbv iota;
    rewrite <- IH; do 2 f_equal;
    match goal with
    | |- context [code ?c] =>
        let v := eval vm_compute in (code c) in change (code c) with v
    end; lia.
Qed.

Lemma leading_digits_of_uint (d : Decimal.uint) (junk : string) :
  no_leading_digit junk = true ->
  leading_digits (NilEmpty.string_of_uint d +++ junk) (Some 0)
  = Some (Z.of_N (Pos.of_uint d)).
Proof.
  intro Hjunk.
  induction d as [|d IH|d IH|d IH|d IH|d IH|d IH|d IH|d IH|d IH|d IH];
    cbn [NilEmpty.string_of_uint String.append Pos.of_uint];
    [apply leading_digits_stop; exact Hjunk|..];
    cbn [leading_digits]; change (is_digit _) with true; cbv iota;
    [exact IH|..];
    cbn [Z.of_N]; rewrite <- (leading_digits_of_uint_acc d _ junk Hjunk);
    reflexivity.
Qed.

Lemma trimStart_not_space (c : ascii) (r : string) :
  ws1 c = false -> code c < 194 -> trimStart (String c r) = String c r.
Proof.
  intros H1 Hc.
  assert (H2 : forall c2, ws2 c c2 = false).
  { intro c2. unfold ws2.
    replace (code c =? 194) with false by (symmetry; apply Z.eqb_neq; lia).
    reflexivity. }
  assert (H3 : forall c2 c3, ws3 c c2 c3 = false).
  { intros c2 c3. unfold ws3.
    replace (code c =? 225) with false by (symmetry; apply Z.eqb_neq; lia).
    replace (code c =? 226) with false by (symmetry; apply Z.eqb_neq; lia).
    replace (code c =? 227) with false by (symmetry; apply Z.eqb_neq; lia).
    replace (code c =? 239) with false by (symmetry; apply Z.eqb_neq; lia).
    reflexivity. }
  destruct r as [|c2 [|c3 r3]]; cbn [trimStart]; rewrite H1, ?H2, ?H3; reflexivity.
Qed.

Lemma digit_not_space (c : ascii) :
  is_digit c = true -> ws1 c = false /\ code c < 194.
Proof.
  unfold is_digit, ws1. intro H. apply andb_true_iff in H as [Hlo Hhi].
  apply Z.leb_le in Hlo, Hhi. split; [|lia].
  replace (code c <=? 13) with false by (symmetry; apply Z.leb_gt; lia).
  replace (code c =? 32) with false by (symmetry; apply Z.eqb_neq; lia).
  now rewrite andb_false_r.
Qed.

Lemma split_sign_digit (c : ascii) (r : string) :
  is_digit c = true -> split_sign (String c r) = (1, String c r).
Proof.
  destruct c as [[] [] [] [] [] [] [] []]; intro H;
    try discriminate H; reflexivity.
Qed.

Lemma string_of_uint_head (d : Decimal.uint) :
  d <> Decimal.Nil ->
  exists c r, NilEmpty.string_of_uint d = String c r /\ is_digit c = true.
Proof.
  destruct d; [contradiction|..]; intros _; do 2 eexists; split; reflexivity.
Qed.

Lemma parseInt10_digits (d : Decimal.uint) (junk : string) :
  d <> Decimal.Nil -> no_leading_digit junk = true ->
  parseInt10 (NilEmpty.string_of_uint d +++ junk)
  = round_to_double (Z.of_N (Pos.of_uint d)).
Proof.
  intros Hd Hjunk.
  pose proof (leading_digits_of_uint d junk Hjunk) as Hval.
  destruct (string_of_uint_head d Hd) as (c & r & Hs & Hc).
  rewrite Hs in *. cbn [String.append] in *.
  destruct (digit_not_space c Hc) as [H1 H2].
  unfold parseInt10. rewrite (trimStart_not_space c _ H1 H2), (split_sign_digit c _ Hc).
  cbn [leading_digits] in *. rewrite Hc in *.
  rewrite Hval. f_equal. lia.
Qed.

Lemma string_of_uint_nonnil (d : Decimal.uint) :
  d <> Decimal.Nil -> NilZero.string_of_uint d = NilEmpty.string_of_uint d.
Proof. destruct d; [contradiction | reflexivity..]. Qed.

(** [parseInt] reads the decimal digits of an integer, and ignores what
    follows the digits. *)
Lemma parseInt10_decimal (z : Z) (junk : string) :
  no_leading_digit junk = true ->
  parseInt10 (decimal z +++ junk) = round_to_double z.
Proof.
  intro Hjunk. unfold decimal, NilZero.string_of_int, Z.to_int.
  destruct z as [|p|p].
  - exact (parseInt10_digits (Decimal.D0 Decimal.Nil) junk
             ltac:(discriminate) Hjunk).
  - pose proof (DecimalPos.Unsigned.to_uint_nonnil p) as Hnil.
    rewrite (string_of_uint_nonnil _ Hnil),
      (parseInt10_digits _ junk Hnil Hjunk), DecimalPos.Unsigned.of_to.
    reflexivity.
  - pose proof (DecimalPos.Unsigned.to_uint_nonnil p) as Hnil.
    rewrite (string_of_uint_nonnil _ Hnil).
    pose proof (leading_digits_of_uint (Pos.to_uint p) junk Hjunk) as Hval.
    rewrite DecimalPos.Unsigned.of_to in Hval.
    destruct (string_of_uint_head _ Hnil) as (c & r & Hs & Hc).
    rewrite Hs in *. cbn [String.append leading_digits] in *.
    rewrite Hc in Hval. unfold parseInt10.
    rewrite (trimStart_not_space "-" _ eq_refl ltac:(vm_compute; reflexivity)).
    cbn [split_sign leading_digits]. rewrite Hc, Hval. reflexivity.
Qed.

(** [parseInt] undoes the printing of a safe integer. *)
Lemma parseInt10_Number_toString (z : Z) (junk : string) :
  safe_integer z ->
  no_leading_digit junk = true ->
  parseInt10 (Number_toString (Int z) +++ junk) = Int z.
Proof.
  intros Hsafe Hjunk.
  rewrite (Number_toString_safe z Hsafe), (parseInt10_decimal z junk Hjunk).
  apply round_to_double_exact. unfold safe_integer in Hsafe. lia.
Qed.

(** A timestamp given as a string that is the printed form of a safe
    integer, with or without text after it that does not go on with a
    digit, is handled as that integer. *)
Theorem verifyAndParse_timestamp_string
        (parseJSON : string -> completion JSValue)
        (self : WebhookVerifier) (signature body junk : string)
        (deliveryId : option string) (T : Z) (w : World) :
  safe_integer T ->
  no_leading_digit junk = true ->
  verifyAndParse parseJSON self
    (Options.make signature (inl (Number_toString (Int T) +++ junk))
                  body deliveryId) w
  = verifyAndParse parseJSON self
      (Options.make signature (inr (Int T)) body deliveryId) w.
Proof.
  intros Hsafe Hjunk. rewrite !verifyAndParse_run.
  cbn [Options.signature Options.timestamp Options.body Options.deliveryId
       normalized].
  now rewrite (parseInt10_Number_toString T junk Hsafe Hjunk).
Qed.

Lemma verifyAndParse_timestamp_string_witness :
  verifyAndParse JSONText.parse scenario_verifier
    (Options.make (sign scenario_secret 1700000000 scenario_body)
                  (inl (Number_toString (Int 1700000000) +++ " UTC"))
                  scenario_body None) scenario_world
  = verifyAndParse JSONText.parse scenario_verifier
      (Options.make (sign scenario_secret 1700000000 scenario_body)
                    (inr (Int 1700000000)) scenario_body None) scenario_world.
Proof.
  apply (verifyAndParse_timestamp_string JSONText.parse scenario_verifier
           (sign scenario_secret 1700000000 scenario_body) scenario_body
           " UTC" None 1700000000 scenario_world).
  - vm_compute. reflexivity.
  - reflexivity.
Defined.

(** Beyond the safe integers the two forms differ: the string "1e+21"
    is read as 1, and "Infinity" as [NaN]. *)
Example parseInt10_of_printed_large :
  parseInt10 (Number_toString (Int (10 ^ 21))) = Int 1
  /\ parseInt10 (Number_toString (Infinity false)) = NaN.
Proof. vm_compute. split; reflexivity. Qed.

(** ** The errors of the response handler *)

(** The one error of [ToString] is the conversion error. *)
Lemma ToString_throws :
  forall (v : JSValue) (e : JSError), ToString v = Throw e -> e = conversion_error.
Proof.
  fix IH 1. intros [| |b|n|s|elements|properties]; cbn [ToString];
    try discriminate.
  - destruct b; discriminate.
  - revert elements. fix IHl 1. intros [|x rest] e; [discriminate|].
    pose proof (IH x e) as Hx. pose proof (IHl rest e) as Hrest.
    destruct (match x with
              | JSUndefined | JSNull => Normal EmptyString
              | _ => ToString x
              end) as [sx|ex] eqn:Ex.
    + match type of Hrest with
      | ?j = _ -> _ => destruct j as [sr|er]
      end; destruct rest as [|y rest']; try discriminate.
      exact Hrest.
    + intro H. apply Hx. rewrite <- H.
      destruct x; try discriminate Ex; exact Ex.
  - intro e. destruct (lookup "toString" properties); [|discriminate].
    intro H. injection H as <-. reflexivity.
Qed.

Lemma error_message_convertible (data : JSValue) (dflt : string) :
  convertible (optional_get data "error") = true ->
  exists m, error_message data dflt = Normal m.
Proof.
  unfold convertible, error_message.
  destruct (optional_get data "error") as [| |b|n|s|l|props] eqn:E;
    cbn [coalesce]; try (intros _; eexists; reflexivity);
    destruct (ToString _) as [m|e]; try discriminate; eauto.
Qed.

Lemma error_message_unconvertible (data : JSValue) (dflt : string) :
  convertible (optional_get data "error") = false ->
  error_message data dflt = Throw conversion_error.
Proof.
  unfold convertible, error_message.
  destruct (optional_get data "error") as [| |b|n|s|l|props] eqn:E;
    cbn [coalesce]; try discriminate;
    destruct (ToString _) as [m|e] eqn:Ets; try discriminate;
    intros _; f_equal; exact (ToString_throws _ _ Ets).
Qed.

Section ResponseErrors.

Variable parseJSON : string -> completion JSValue.

(** [parseJson] never throws. *)
Lemma parseJson_run (r : Response) (w : World) :
  parseJson parseJSON r w
  = (Normal (body_value parseJSON (text r)), world_after_body w (text r)).
Proof.
  unfold parseJson, try_catch, bind, Response_text, ret, body_value,
    world_after_body.
  destruct (nonempty (text r)); [|reflexivity].
  unfold JSON_parse. destruct (parseJSON (text r)); reflexivity.
Qed.

Lemma bind_parseJson_run (r : Response) (w : World) (dflt : string)
      (make : string -> JSError) :
  bind (parseJson parseJSON r)
       (fun data =>
          bind (lift (error_message data dflt))
               (fun message => @throw JSValue (make message))) w
  = (throw_with_message (error_message (body_value parseJSON (text r)) dflt) make,
     world_after_body w (text r)).
Proof.
  unfold bind at 1. rewrite parseJson_run.
  unfold bind, lift, throw, throw_with_message.
  destruct (error_message _ _); reflexivity.
Qed.

(** The outcome of [handleResponse] on a status from 400 up. *)
Lemma handleResponse_error_run (r : Response) (w : World) :
  400 <= status r ->
  handleResponse parseJSON r w
  = if status r =? 401
    then (Throw (new_AuthenticationError None), w)
    else if status r =? 403
    then (throw_with_message
            (error_message (body_value parseJSON (text r)) "Access denied")
            (fun m => new_ForbiddenError (Some m)),
          world_after_body w (text r))
    else if status r =? 404
    then (throw_with_message
            (error_message (body_value parseJSON (text r)) "Resource not found")
            (fun m => new_NotFoundError (Some m)),
          world_after_body w (text r))
    else if status r =? 429
    then (Throw (new_RateLimitError (Some "Rate limit exceeded")
                   match Headers_get (headers r) "Retry-After" with
                   | Some value => if nonempty value
                                   then Some (parseInt10 value) else None
                   | None => None
                   end), w)
    else if status r =? 400
    then (throw_with_message
            (error_message (body_value parseJSON (text r)) "Invalid request")
            (fun m => new_ValidationError (Some m)),
          world_after_body w (text r))
    else (throw_with_message
            (error_message (body_value parseJSON (text r))
               ("Request failed with status "
                +++ Number_toString (Int (status r))))
            (fun m => new_EZUnsubError m (Some (status r))),
          world_after_body w (text r)).
Proof.
  intro Hge. unfold handleResponse.
  destruct (status r =? 401); [reflexivity|].
  destruct (status r =? 403); [apply bind_parseJson_run|].
  destruct (status r =? 404); [apply bind_parseJson_run|].
  destruct (status r =? 429); [reflexivity|].
  destruct (status r =? 400); [apply bind_parseJson_run|].
  replace (400 <=? status r) with true by (symmetry; apply Z.leb_le; exact Hge).
  apply (bind_parseJson_run r w _
           (fun m => new_EZUnsubError m (Some (status r)))).
Qed.

(** What [throw_with_message] throws. *)
Lemma throw_with_message_thrown (data : JSValue) (dflt : string)
      (make : string -> JSError) (w : World) :
  exists e,
    thrown (throw_with_message (error_message data dflt) make, w) = Some e
    /\ (forall m, error_message data dflt = Normal m -> e = make m)
    /\ (convertible (optional_get data "error") = true ->
        exists m, e = make m)
    /\ (convertible (optional_get data "error") = false ->
        e = conversion_error).
Proof.
  unfold throw_with_message, thrown. cbn [fst].
  destruct (error_message data dflt) as [m|t] eqn:E.
  - exists (make m). split; [reflexivity|]. split; [|split].
    + intros m' H. now injection H as <-.
    + eauto.
    + intro H. rewrite (error_message_unconvertible _ dflt H) in E.
      discriminate E.
  - exists t. split; [reflexivity|]. split; [|split].
    + discriminate.
    + intro H. destruct (error_message_convertible _ dflt H) as [m Hm].
      rewrite Hm in E. discriminate E.
    + intro H. rewrite (error_message_unconvertible _ dflt H) in E.
      now injection E as <-.
Qed.

(** For every status from 400 up, the handler throws: an instance of
    [EZUnsubError] whose [statusCode] is the status of the response when
    the status is 401 or 429 or the [error] value of the body converts to
    a string; the [TypeError] of the conversion otherwise. *)
Theorem handleResponse_throws_EZUnsubError (r : Response) (w : World) :
  400 <= status r ->
  exists e,
    thrown (handleResponse parseJSON r w) = Some e
    /\ (status r = 401 \/ status r = 429
        \/ convertible (error_value parseJSON (text r)) = true ->
        instanceOf e EZUnsubError = true
        /\ statusCode e = Some (status r))
    /\ (status r <> 401 -> status r <> 429 ->
        convertible (error_value parseJSON (text r)) = false ->
        e = conversion_error
        /\ instanceOf e EZUnsubError = false).
Proof.
  intro Hge. rewrite (handleResponse_error_run r w Hge). unfold error_value.
  destruct (Z.eq_dec (status r) 401) as [E1|N1].
  { rewrite E1. eexists. split; [reflexivity|].
    split; [intros _; split; reflexivity | intros H; contradiction]. }
  destruct (Z.eq_dec (status r) 429) as [E9|N9].
  { rewrite E9. eexists. split; [reflexivity|].
    split; [intros _; split; reflexivity | intros _ H; contradiction]. }
  replace (status r =? 401) with false by (symmetry; apply Z.eqb_neq; exact N1).
  replace (status r =? 429) with false by (symmetry; apply Z.eqb_neq; exact N9).
  destruct (Z.eqb_spec (status r) 403) as [E3|_];
    [|destruct (Z.eqb_spec (status r) 404) as [E4|_];
      [|destruct (Z.eqb_spec (status r) 400) as [E0|_]]];
    match goal with
    | |- context [throw_with_message (error_message ?d ?dflt) ?make] =>
        destruct (throw_with_message_thrown d dflt make
                    (world_after_body w (text r)))
          as (e & He & _ & Hconv & Hthrow)
    end;
    (exists e; split; [exact He|]; split;
     [ intros [H|[H|H]]; [contradiction | contradiction |];
       destruct (Hconv H) as [m ->]; split; [reflexivity|];
       cbn [statusCode new_ForbiddenError new_NotFoundError new_ValidationError
            new_EZUnsubError]; congruence
     | intros _ _ H; rewrite (Hthrow H); split; reflexivity ]).
Qed.

(** The handler parses the body at most once, and only when it is not
    empty; for the statuses 401, 429 and 204 it does not parse it. *)
Theorem handleResponse_parses_body_once (r : Response) (w : World) :
  snd (handleResponse parseJSON r w)
  = if (status r =? 401) || (status r =? 429) || (status r =? 204)
    then w
    else world_after_body w (text r).
Proof.
  destruct (Z_le_gt_dec 400 (status r)) as [Hge|Hlt].
  - rewrite (handleResponse_error_run r w Hge).
    destruct (Z.eq_dec (status r) 401) as [E|E1]; [decide_status; reflexivity|].
    destruct (Z.eq_dec (status r) 403) as [E|E3]; [decide_status; reflexivity|].
    destruct (Z.eq_dec (status r) 404) as [E|E4]; [decide_status; reflexivity|].
    destruct (Z.eq_dec (status r) 429) as [E|E9]; [decide_status; reflexivity|].
    destruct (Z.eq_dec (status r) 400) as [E|E0]; decide_status; reflexivity.
  - unfold handleResponse. decide_status.
    destruct (Z.eqb_spec (status r) 204) as [E|E]; [reflexivity|].
    cbn [orb]. unfold bind, Response_text, ret, world_after_body.
    destruct (nonempty (text r)); reflexivity.
Qed.

(** The message of the error, for the statuses that read the body: the
    default when the body is empty or does not parse, and the [error]
    string of the body when it is a JSON object that has one. *)
Theorem handleResponse_error_message (r : Response) (w : World) :
  400 <= status r -> status r <> 401 -> status r <> 429 ->
  let default_message :=
    if status r =? 403 then "Access denied"
    else if status r =? 404 then "Resource not found"
    else if status r =? 400 then "Invalid request"
    else "Request failed with status " +++ Number_toString (Int (status r)) in
  exists e,
    thrown (handleResponse parseJSON r w) = Some e
    /\ (text r = EmptyString \/ (exists d, parseJSON (text r) = Throw d) ->
        message e = default_message)
    /\ (forall props m,
           text r <> EmptyString ->
           parseJSON (text r) = Normal (JSObject props) ->
           lookup "error" props = Some (JSString m) ->
           message e = m)
    /\ (forall props,
           parseJSON (text r) = Normal (JSObject props) ->
           lookup "error" props = None ->
           message e = default_message).
Proof.
  intros Hge H401 H429 default_message.
  assert (Hdefault : text r = EmptyString \/ (exists d, parseJSON (text r) = Throw d) ->
                     forall dflt,
                       error_message (body_value parseJSON (text r)) dflt
                       = Normal dflt).
  { unfold body_value, nonempty. intros [->|[d ->]] dflt; [reflexivity|].
    destruct (negb _); reflexivity. }
  assert (Hstring : forall props m,
             text r <> EmptyString ->
             parseJSON (text r) = Normal (JSObject props) ->
             lookup "error" props = Some (JSString m) ->
             forall dflt,
               error_message (body_value parseJSON (text r)) dflt = Normal m).
  { unfold body_value, nonempty. intros props m Hne -> Hl dflt.
    destruct (String.eqb_spec (text r) EmptyString); [contradiction|].
    unfold error_message. cbn [negb optional_get]. rewrite Hl. reflexivity. }
  assert (Hnoerror : forall props,
             parseJSON (text r) = Normal (JSObject props) ->
             lookup "error" props = None ->
             forall dflt,
               error_message (body_value parseJSON (text r)) dflt = Normal dflt).
  { unfold body_value. intros props -> Hl dflt.
    destruct (nonempty (text r)); [|reflexivity].
    unfold error_message. cbn [optional_get]. rewrite Hl. reflexivity. }
  rewrite (handleResponse_error_run r w Hge). subst default_message.
  replace (status r =? 401) with false by (symmetry; apply Z.eqb_neq; exact H401).
  replace (status r =? 429) with false by (symmetry; apply Z.eqb_neq; exact H429).
  destruct (status r =? 403); [|destruct (status r =? 404);
                                 [|destruct (status r =? 400)]];
    match goal with
    | |- context [throw_with_message (error_message ?d ?dflt) ?make] =>
        destruct (throw_with_message_thrown d dflt make
                    (world_after_body w (text r)))
          as (e & He & Hm & _ & _)
    end;
    (exists e; split; [exact He|];
     split; [intro H; rewrite (Hm _ (Hdefault H _)); reflexivity|];
     split; [intros props m Hne Hp Hl;
             rewrite (Hm _ (Hstring props m Hne Hp Hl _)); reflexivity
            |intros props Hp Hl;
             rewrite (Hm _ (Hnoerror props Hp Hl _)); reflexivity]).
Qed.

(** Below 400 the handler returns the empty object for the status 204
    and for an empty body, and otherwise what [JSON.parse] makes of the
    body. *)
Lemma handleResponse_success_run (r : Response) (w : World) :
  status r < 400 ->
  handleResponse parseJSON r w
  = if (status r =? 204) || negb (nonempty (text r))
    then (Normal (JSObject []), w)
    else (parseJSON (text r), after_parse w (text r)).
Proof.
  intro Hlt. unfold handleResponse. decide_status.
  destruct (Z.eq_dec (status r) 204) as [E|E]; decide_status; [reflexivity|].
  cbn [orb]. unfold bind, Response_text, ret.
  destruct (nonempty (text r)); reflexivity.
Qed.

(** The mapping of the status to the error classes, for the responses
    whose [error] value converts to a string: 401 to
    [AuthenticationError], 403 to [ForbiddenError], 404 to
    [NotFoundError], 429 to [RateLimitError] with the [Retry-After] header
    parsed as an integer when the header has a value, 400 to
    [ValidationError], any other status from 400 up to [EZUnsubError] with
    that status code.  Below 400, status 204 and an empty body give the
    empty object, and any other body is handed to [JSON.parse]. *)
Theorem handleResponse_status_classes (r : Response) (w : World) :
  let result := handleResponse parseJSON r w in
  let converts := convertible (error_value parseJSON (text r)) = true in
  (status r = 401 ->
   exists e, thrown result = Some e
             /\ class e = AuthenticationError /\ statusCode e = Some 401)
  /\ (status r = 403 -> converts ->
      exists e, thrown result = Some e
                /\ class e = ForbiddenError /\ statusCode e = Some 403)
  /\ (status r = 404 -> converts ->
      exists e, thrown result = Some e
                /\ class e = NotFoundError /\ statusCode e = Some 404)
  /\ (status r = 429 ->
      exists e, thrown result = Some e
                /\ class e = RateLimitError /\ statusCode e = Some 429
                /\ (forall value,
                       Headers_get (headers r) "Retry-After" = Some value ->
                       value <> EmptyString ->
                       retryAfter e = Some (parseInt10 value))
                /\ (Headers_get (headers r) "Retry-After" = None ->
                    retryAfter e = None))
  /\ (status r = 400 -> converts ->
      exists e, thrown result = Some e
                /\ class e = ValidationError /\ statusCode e = Some 400)
  /\ (400 <= status r ->
      ~ In (status r) [400; 401; 403; 404; 429] -> converts ->
      exists e, thrown result = Some e
                /\ class e = EZUnsubError /\ statusCode e = Some (status r))
  /\ (status r < 400 ->
      status r = 204 \/ text r = EmptyString ->
      result = (Normal (JSObject []), w))
  /\ (status r < 400 ->
      status r <> 204 -> text r <> EmptyString ->
      result = (parseJSON (text r), after_parse w (text r))).
Proof.
  intros result converts. unfold result, converts, error_value.
  assert (Hbody : forall dflt make,
             convertible (optional_get (body_value parseJSON (text r)) "error")
             = true ->
             exists m,
               thrown (throw_with_message
                         (error_message (body_value parseJSON (text r)) dflt) make,
                       world_after_body w (text r)) = Some (make m)).
  { intros dflt make H.
    destruct (throw_with_message_thrown (body_value parseJSON (text r)) dflt make
                (world_after_body w (text r))) as (e & He & _ & Hconv & _).
    destruct (Hconv H) as [m ->]. exists m. exact He. }
  repeat match goal with |- _ /\ _ => split end.
  - intro H. rewrite (handleResponse_error_run r w ltac:(lia)), H.
    eexists. split; [reflexivity|]. split; reflexivity.
  - intros H Hc. rewrite (handleResponse_error_run r w ltac:(lia)).
    decide_status. destruct (Hbody "Access denied"
                               (fun m => new_ForbiddenError (Some m)) Hc) as [m Hm].
    eexists. split; [exact Hm|]. split; reflexivity.
  - intros H Hc. rewrite (handleResponse_error_run r w ltac:(lia)).
    decide_status. destruct (Hbody "Resource not found"
                               (fun m => new_NotFoundError (Some m)) Hc) as [m Hm].
    eexists. split; [exact Hm|]. split; reflexivity.
  - intro H. rewrite (handleResponse_error_run r w ltac:(lia)).
    decide_status.
    eexists. split; [reflexivity|].
    cbn [class statusCode retryAfter new_RateLimitError].
    repeat split.
    + intros value Hget Hne. rewrite Hget.
      destruct value; [contradiction | reflexivity].
    + intros Hget. rewrite Hget. reflexivity.
  - intros H Hc. rewrite (handleResponse_error_run r w ltac:(lia)).
    decide_status. destruct (Hbody "Invalid request"
                               (fun m => new_ValidationError (Some m)) Hc) as [m Hm].
    eexists. split; [exact Hm|]. split; reflexivity.
  - intros Hge Hnot Hc. cbn [In] in Hnot.
    assert (status r <> 400 /\ status r <> 401 /\ status r <> 403
            /\ status r <> 404 /\ status r <> 429) as (H0 & H1 & H3 & H4 & H9)
        by (repeat split; intro E; apply Hnot; rewrite E; tauto).
    rewrite (handleResponse_error_run r w Hge). decide_status.
    destruct (Hbody ("Request failed with status "
                     +++ Number_toString (Int (status r)))
                    (fun m => new_EZUnsubError m (Some (status r))) Hc) as [m Hm].
    eexists. split; [exact Hm|]. split; reflexivity.
  - intros Hlt [H204|Hempty].
    + rewrite (handleResponse_success_run r w Hlt), H204. reflexivity.
    + rewrite (handleResponse_success_run r w Hlt). unfold nonempty.
      rewrite Hempty, orb_true_r. reflexivity.
  - intros Hlt H204 Hne. rewrite (handleResponse_success_run r w Hlt).
    unfold nonempty.
    destruct (String.eqb_spec (text r) EmptyString) as [E|E]; [contradiction|].
    decide_status. reflexivity.
Qed.

End ResponseErrors.

Lemma handleResponse_throws_EZUnsubError_witness :
  (exists e,
      thrown (handleResponse JSONText.parse
                (mkResponse 418 [] "I am a teapot") scenario_world) = Some e
      /\ instanceOf e EZUnsubError = true
      /\ statusCode e = Some 418)
  /\ thrown (handleResponse JSONText.parse
               (mkResponse 500 [] (single_quoted "{'error':[{'toString':null}]}"))
               scenario_world)
     = Some conversion_error.
Proof.
  split.
  - destruct (handleResponse_throws_EZUnsubError JSONText.parse
                (mkResponse 418 [] "I am a teapot") scenario_world
                ltac:(vm_compute; discriminate))
      as (e & He & Hinst & _).
    exists e. split; [exact He|].
    apply Hinst. right. right. reflexivity.
  - destruct (handleResponse_throws_EZUnsubError JSONText.parse
                (mkResponse 500 [] (single_quoted "{'error':[{'toString':null}]}"))
                scenario_world ltac:(vm_compute; discriminate))
      as (e & He & _ & Hconv).
    rewrite He. f_equal.
    apply Hconv; [discriminate | discriminate | reflexivity].
Defined.

Lemma handleResponse_error_message_witness :
  exists e,
    thrown (handleResponse JSONText.parse
              (mkResponse 404 [] (single_quoted "{'error':'No such contact'}"))
              scenario_world) = Some e
    /\ message e = "No such contact".
Proof.
  destruct (handleResponse_error_message JSONText.parse
              (mkResponse 404 [] (single_quoted "{'error':'No such contact'}"))
              scenario_world
              ltac:(vm_compute; discriminate) ltac:(discriminate)
              ltac:(discriminate))
    as (e & He & _ & Hm & _).
  exists e. split; [exact He|].
  apply (Hm [("error", JSString "No such contact")] "No such contact");
    [discriminate | reflexivity | reflexivity].
Defined.

Lemma handleResponse_status_classes_witness :
  (exists e,
      thrown (handleResponse JSONText.parse
                (mkResponse 429 [("retry-after", "30")] EmptyString)
                scenario_world) = Some e
      /\ class e = RateLimitError /\ retryAfter e = Some (Int 30))
  /\ (exists e,
         thrown (handleResponse JSONText.parse
                   (mkResponse 403 [] (single_quoted "{'error':'No access'}"))
                   scenario_world) = Some e
         /\ class e = ForbiddenError /\ statusCode e = Some 403)
  /\ handleResponse JSONText.parse (mkResponse 200 [] "[1]") scenario_world
     = (Normal (JSArray [JSNumber (Int 1)]), after_parse scenario_world "[1]").
Proof.
  split; [|split].
  - destruct (handleResponse_status_classes JSONText.parse
                (mkResponse 429 [("retry-after", "30")] EmptyString)
                scenario_world)
      as (_ & _ & _ & H429 & _).
    destruct (H429 eq_refl) as (e & He & Hc & _ & Hretry & _).
    exists e. repeat split; [exact He | exact Hc |].
    apply (Hretry "30"); [reflexivity | discriminate].
  - destruct (handleResponse_status_classes JSONText.parse
                (mkResponse 403 [] (single_quoted "{'error':'No access'}"))
                scenario_world)
      as (_ & H403 & _).
    exact (H403 eq_refl eq_refl).
  - destruct (handleResponse_status_classes JSONText.parse
                (mkResponse 200 [] "[1]") scenario_world)
      as (_ & _ & _ & _ & _ & _ & _ & Hjson).
    apply Hjson; [reflexivity | discriminate | discriminate].
Defined.

Example handleResponse_unreadable_body :
  thrown (handleResponse JSONText.parse (mkResponse 403 [] "<html>") scenario_world)
  = Some (new_ForbiddenError (Some "Access denied")).
Proof. reflexivity. Qed.

(** ** Query parameters *)

Lemma lookup_absent {A : Type} (k : string) (l : list (string * A)) :
  ~ In k (map fst l) -> lookup k l = None.
Proof.
  induction l as [|[k0 v0] l IH]; [reflexivity|].
  cbn [map fst In lookup]. intro H.
  destruct (String.eqb_spec k0 k) as [E|E]; [exfalso; auto|].
  apply IH. auto.
Qed.

Lemma lookup_filter_other (l : list (string * string)) (name other : string) :
  other <> name ->
  lookup other (filter (fun e => negb (String.eqb (fst e) name)) l)
  = lookup other l.
Proof.
  intro Hne. induction l as [|[k v] l IH]; [reflexivity|].
  cbn [filter fst]. destruct (String.eqb_spec k name) as [E|E]; cbn [negb lookup].
  - subst k. destruct (String.eqb_spec name other) as [E'|_];
      [symmetry in E'; contradiction | exact IH].
  - now rewrite IH.
Qed.

(** [get] after [set]: the name set has the value set, the other names
    are as before. *)
Lemma URLSearchParams_get_set (l : list (string * string)) (name value other : string) :
  URLSearchParams_get (URLSearchParams_set l name value) other
  = if String.eqb name other then Some value else URLSearchParams_get l other.
Proof.
  unfold URLSearchParams_get.
  induction l as [|[k v] l IH]; cbn [URLSearchParams_set lookup].
  - reflexivity.
  - destruct (String.eqb_spec k name) as [E|E]; cbn [lookup].
    + subst k. destruct (String.eqb_spec name other) as [E'|E']; [reflexivity|].
      apply lookup_filter_other. auto.
    + destruct (String.eqb_spec k other) as [E'|E'].
      * subst k. destruct (String.eqb_spec name other) as [E''|_];
          [symmetry in E''; contradiction | reflexivity].
      * exact IH.
Qed.

Lemma set_params_cons (url : URL) (k : string) (v : ParamValue)
      (params : list (string * ParamValue)) :
  set_params url ((k, v) :: params)
  = set_params match v with
               | ParamUndefined => url
               | _ => mkURL (location url)
                        (URLSearchParams_set (searchParams url) k (String_of v))
               end params.
Proof. unfold set_params. cbn [fold_left snd fst]. destruct v; reflexivity. Qed.

(** The parameters of [request]: a parameter whose value is [undefined]
    is not sent, every other one is sent as [String(value)] and replaces
    what the path carried under that name; the rest of the URL is
    untouched.  The names of an object's entries are distinct. *)
Theorem set_params_get (params : list (string * ParamValue)) (url : URL) :
  NoDup (map fst params) ->
  location (set_params url params) = location url
  /\ forall name,
      URLSearchParams_get (searchParams (set_params url params)) name
      = match lookup name params with
        | Some ParamUndefined | None => URLSearchParams_get (searchParams url) name
        | Some value => Some (String_of value)
        end.
Proof.
  revert url.
  induction params as [|[k v] params IH]; intros url Hnodup.
  - split; reflexivity.
  - cbn [map fst] in Hnodup. inversion Hnodup as [|? ? Hnotin Hrest]; subst.
    rewrite set_params_cons.
    set (url' := match v with
                 | ParamUndefined => url
                 | _ => mkURL (location url)
                          (URLSearchParams_set (searchParams url) k (String_of v))
                 end).
    destruct (IH url' Hrest) as [Hloc Hget]. split.
    + rewrite Hloc. subst url'. destruct v; reflexivity.
    + intro name. rewrite Hget. cbn [lookup].
      destruct (String.eqb_spec k name) as [E|E].
      * subst name. rewrite (lookup_absent k params Hnotin).
        subst url'. destruct v; cbn [searchParams];
          rewrite ?URLSearchParams_get_set, ?String.eqb_refl; reflexivity.
      * assert (Hsame : URLSearchParams_get (searchParams url') name
                        = URLSearchParams_get (searchParams url) name).
        { subst url'. destruct v; cbn [searchParams];
            rewrite ?URLSearchParams_get_set; [| | |reflexivity];
            destruct (String.eqb_spec k name); try contradiction; reflexivity. }
        rewrite Hsame. reflexivity.
Qed.

Lemma set_params_get_witness :
  URLSearchParams_get
    (searchParams
       (set_params (mkURL "https://api.ezunsub.com/api/links" [("page", "9")])
          [("page", ParamNumber (Int 1)); ("limit", ParamNumber (Int 50));
           ("offerId", ParamUndefined)]))
    "page"
  = Some "1".
Proof.
  exact (proj2 (set_params_get
                  [("page", ParamNumber (Int 1)); ("limit", ParamNumber (Int 50));
                   ("offerId", ParamUndefined)]
                  (mkURL "https://api.ezunsub.com/api/links" [("page", "9")])
                  ltac:(repeat constructor; cbn; intuition discriminate))
               "page").
Defined.

(** ** [request] *)

Section Request.

Variable parseJSON : string -> completion JSValue.
Variable stringifyJSON : JSValue -> completion (option string).
Variable new_URL : string -> string -> completion URL.
Variable URL_toString : URL -> string.
Variable fetch : string -> RequestInit.t -> completion Response.

Lemma request_run (self : EZUnsubClient) (method path : string)
      (options : option RequestOptions.t) (w : World) :
  request parseJSON stringifyJSON new_URL URL_toString fetch
          self method path options w
  = match new_URL path (baseUrl self) with
    | Throw e => (Throw e, w)
    | Normal url =>
        send parseJSON stringifyJSON URL_toString fetch self method
             (request_url options url) (request_json options) w
    end.
Proof.
  unfold request, bind at 1, lift at 1.
  destruct (new_URL path (baseUrl self)) as [url|e]; [|reflexivity].
  destruct options as [[json params]|]; reflexivity.
Qed.

Lemma send_run (self : EZUnsubClient) (method : string) (url : URL)
      (json : option JSValue) (w : World) :
  send parseJSON stringifyJSON URL_toString fetch self method url json w
  = match (match json with
           | Some j => if ToBoolean j then stringifyJSON j else Normal None
           | None => Normal None
           end) with
    | Throw error => (Throw (rethrown error), w)
    | Normal body =>
        match fetch (URL_toString url)
                    (RequestInit.make method
                       [("x-api-key", apiKey self);
                        ("Content-Type", "application/json");
                        ("User-Agent", "ezunsub-typescript/0.1.0")]
                       body) with
        | Throw error => (Throw (rethrown error), w)
        | Normal response => handleResponse parseJSON response w
        end
    end.
Proof.
  unfold send, bind, try_catch, lift, ret, throw, rethrown.
  destruct json as [j|]; [destruct (ToBoolean j)|].
  - destruct (stringifyJSON j) as [body|error].
    + destruct (fetch _ _) as [response|error]; [reflexivity|].
      destruct (instanceOf error EZUnsubError); reflexivity.
    + destruct (instanceOf error EZUnsubError); reflexivity.
  - destruct (fetch _ _) as [response|error]; [reflexivity|].
    destruct (instanceOf error EZUnsubError); reflexivity.
  - destruct (fetch _ _) as [response|error]; [reflexivity|].
    destruct (instanceOf error EZUnsubError); reflexivity.
Qed.

Lemma rethrown_instance (error : JSError) :
  instanceOf (rethrown error) EZUnsubError = true.
Proof.
  unfold rethrown. destruct (instanceOf error EZUnsubError) eqn:E;
    [exact E | reflexivity].
Qed.

(** When [fetch] rejects with an error that is not an [EZUnsubError],
    [request] rejects with an [EZUnsubError] whose message is "Request
    failed: " followed by the message of that error, and which has no
    status code. *)
Theorem request_wraps_fetch_error (self : EZUnsubClient) (method path : string)
        (options : option RequestOptions.t) (w : World)
        (url : URL) (error : JSError) :
  new_URL path (baseUrl self) = Normal url ->
  (forall j, exists body, stringifyJSON j = Normal body) ->
  (forall address init, fetch address init = Throw error) ->
  instanceOf error EZUnsubError = false ->
  request parseJSON stringifyJSON new_URL URL_toString fetch
          self method path options w
  = (Throw (new_EZUnsubError ("Request failed: " +++ message error) None), w).
Proof.
  intros Hurl Hstringify Hfetch Hinst.
  rewrite request_run, Hurl, send_run.
  assert (Hbody : exists body,
             match request_json options with
             | Some j => if ToBoolean j then stringifyJSON j else Normal None
             | None => Normal None
             end = Normal body).
  { destruct (request_json options) as [j|]; [|eauto].
    destruct (ToBoolean j); [apply Hstringify | eauto]. }
  destruct Hbody as [body ->]. rewrite Hfetch.
  unfold rethrown. now rewrite Hinst.
Qed.

(** [ContactsResource.list] always sends [page] and [limit], 1 and 50
    unless given, and sends [linkCode] only when it is given. *)
Theorem ContactsResource_list_query (client : EZUnsubClient)
        (options : option ContactsListOptions) (url : URL) (w : World) :
  new_URL "/api/contacts" (baseUrl client) = Normal url ->
  exists url',
    ContactsResource_list parseJSON stringifyJSON new_URL URL_toString fetch
                          client options w
    = send parseJSON stringifyJSON URL_toString fetch client "GET" url' None w
    /\ location url' = location url
    /\ URLSearchParams_get (searchParams url') "page"
       = Some (Number_toString
                 (or_default (match options with
                              | Some o => page o
                              | None => None
                              end) (Int 1)))
    /\ URLSearchParams_get (searchParams url') "limit"
       = Some (Number_toString
                 (or_default (match options with
                              | Some o => limit o
                              | None => None
                              end) (Int 50)))
    /\ URLSearchParams_get (searchParams url') "linkCode"
       = match options with
         | Some o =>
             match linkCode o with
             | Some code => Some code
             | None => URLSearchParams_get (searchParams url) "linkCode"
             end
         | None => URLSearchParams_get (searchParams url) "linkCode"
         end.
Proof.
  intro Hurl. unfold ContactsResource_list.
  rewrite request_run, Hurl. cbn [request_url request_json RequestOptions.params
                                   RequestOptions.json].
  eexists. split; [reflexivity|].
  rewrite !set_params_cons.
  destruct options as [[pg lm [code|]]|];
    cbn [set_params fold_left location searchParams page limit linkCode];
    repeat split; rewrite ?URLSearchParams_get_set; reflexivity.
Qed.

End Request.

Lemma request_wraps_fetch_error_witness :
  request JSONText.parse sample_stringify sample_new_URL location
          sample_fetch_down sample_client "DELETE" "/api/contacts/c1" None
          scenario_world
  = (Throw (new_EZUnsubError "Request failed: fetch failed" None),
     scenario_world).
Proof.
  apply (request_wraps_fetch_error JSONText.parse sample_stringify
           sample_new_URL location sample_fetch_down sample_client
           "DELETE" "/api/contacts/c1" None scenario_world
           (mkURL "https://api.ezunsub.com/api/contacts/c1" [])
           (new_Error TypeError "TypeError" "fetch failed")).
  - reflexivity.
  - intro j. eexists. reflexivity.
  - reflexivity.
  - reflexivity.
Defined.

Lemma ContactsResource_list_query_witness :
  exists url',
    ContactsResource_list JSONText.parse sample_stringify sample_new_URL
      location sample_fetch_down sample_client
      (Some (mkContactsListOptions (Some (Int 3)) None None)) scenario_world
    = send JSONText.parse sample_stringify location sample_fetch_down
           sample_client "GET" url' None scenario_world
    /\ URLSearchParams_get (searchParams url') "page" = Some "3"
    /\ URLSearchParams_get (searchParams url') "limit" = Some "50"
    /\ URLSearchParams_get (searchParams url') "linkCode" = None.
Proof.
  destruct (ContactsResource_list_query JSONText.parse sample_stringify
              sample_new_URL location sample_fetch_down sample_client
              (Some (mkContactsListOptions (Some (Int 3)) None None))
              (mkURL "https://api.ezunsub.com/api/contacts" [])
              scenario_world eq_refl)
    as (url' & Hrun & _ & Hpage & Hlimit & Hcode).
  exists url'. repeat split; assumption.
Defined.

(** ** The client's base URL *)

Lemma remove_trailing_slash_append (s : string) :
  remove_trailing_slash (s +++ "/") = s.
Proof.
  induction s as [|c s IH]; [reflexivity|].
  cbn [String.append remove_trailing_slash].
  destruct s as [|c' s']; [reflexivity|].
  cbn [String.append] in *. now rewrite IH.
Qed.

Lemma remove_trailing_slash_unchanged (s : string) :
  (forall t, s <> t +++ "/") -> remove_trailing_slash s = s.
Proof.
  induction s as [|c s IH]; intro H; [reflexivity|].
  cbn [remove_trailing_slash]. destruct s as [|c' s'].
  - destruct (Ascii.eqb_spec c "/") as [->|]; [|reflexivity].
    exfalso. exact (H EmptyString eq_refl).
  - f_equal. apply IH. intros t E.
    apply (H (String c t)). cbn [String.append]. now rewrite E.
Qed.

(** The constructor removes one slash from the end of the base URL and
    nothing else: a base URL that does not end in a slash is kept as it
    is, and of two slashes at the end one is left. *)
Theorem new_EZUnsubClient_baseUrl (key url : string) (tm : option Z) :
  baseUrl (new_EZUnsubClient (mkEZUnsubClientOptions key (Some (url +++ "/")) tm))
  = url
  /\ ((forall t, url <> t +++ "/") ->
      baseUrl (new_EZUnsubClient (mkEZUnsubClientOptions key (Some url) tm))
      = url).
Proof.
  split.
  - apply remove_trailing_slash_append.
  - apply remove_trailing_slash_unchanged.
Qed.

Example new_EZUnsubClient_two_slashes :
  baseUrl (new_EZUnsubClient
             (mkEZUnsubClientOptions "key-1" (Some "https://example.com//") None))
  = "https://example.com/".
Proof. reflexivity. Qed.

Example new_EZUnsubClient_defaults :
  new_EZUnsubClient (mkEZUnsubClientOptions "key-1" None None)
  = mkEZUnsubClient "key-1" "https://api.ezunsub.com" 30000.
Proof. reflexivity. Qed.
